(** * Govee BLE light entity: frame codec, command builder, transport

    Shallow embedding of [custom_components/govee-ble-lights/light.py]
    (class [GoveeBluetoothLight]) and the properties of its protocol
    engine: the 20-byte frame with XOR checksum, the payload checks,
    the order of the frames of a turn-on call, brightness rescaling,
    the bounded connect loop and the entity state left behind by a
    failing call. *)

From Stdlib Require Import ZArith List String Ascii Bool Lia.
From Stdlib Require Import Floats.SpecFloat.
From Stdlib Require Import DecimalString DecimalNat Sorted Permutation.
From Stdlib Require DecimalFacts.
Import ListNotations.
Open Scope string_scope.
Open Scope list_scope.
Open Scope Z_scope.
Set Warnings "-register-all".

(** ** Python values, exceptions and results *)

Module Py.

(** The exceptions that the modelled code can raise or meet.
    [CancelledError] derives from [BaseException] only, every other
    one from [Exception]. *)
Inductive exn : Type :=
| ValueError (msg : string)
| TypeError
| IndexError
| KeyError
| AttributeError
| ZeroDivisionError
| OverflowError
| OSError
| BleakError
| CancelledError.

Definition is_Exception (e : exn) : bool :=
  match e with
  | CancelledError => false
  | _ => true
  end.

(** A call either raises or returns. *)
Definition result (A : Type) : Type := (exn + A)%type.

Definition raise {A : Type} (e : exn) : result A := inl e.
Definition ret {A : Type} (a : A) : result A := inr a.

Definition bind {A B : Type} (r : result A) (k : A -> result B) : result B :=
  match r with
  | inl e => inl e
  | inr a => k a
  end.

(** The values that flow through the entity: what [json.loads] can
    return, plus [bytes]. A [bytes] object is a list of integers, each
    of which lies in [0, 256) for a well-formed one ([wf_bytes]). *)
Inductive pyval : Type :=
| PyNone
| PyBool (b : bool)
| PyInt (z : Z)
| PyFloat (f : spec_float)
| PyStr (s : string)
| PyBytes (bs : list Z)
| PyList (xs : list pyval)
| PyDict (kvs : list (string * pyval)).

Definition is_byte (z : Z) : bool := (0 <=? z) && (z <? 256).

Definition wf_bytes (bs : list Z) : Prop := Forall (fun z => 0 <= z < 256) bs.

(** [isinstance(x, int)]: [bool] is a subclass of [int]. *)
Definition isinstance_int (x : pyval) : bool :=
  match x with
  | PyInt _ | PyBool _ => true
  | _ => false
  end.

Definition isinstance_bytes (x : pyval) : bool :=
  match x with
  | PyBytes _ => true
  | _ => false
  end.

Definition isinstance_list (x : pyval) : bool :=
  match x with
  | PyList _ => true
  | _ => false
  end.

(** The integer behind an [int] (or [bool]) object. *)
Definition int_value (x : pyval) : Z :=
  match x with
  | PyInt z => z
  | PyBool true => 1
  | _ => 0
  end.

(** [all(isinstance(x, int) for x in payload)] on a list. *)
Definition all_int (x : pyval) : bool :=
  match x with
  | PyList xs => forallb isinstance_int xs
  | _ => false
  end.

(** [len(x)] *)
Definition len (x : pyval) : result Z :=
  match x with
  | PyStr s => ret (Z.of_nat (String.length s))
  | PyBytes bs => ret (Z.of_nat (List.length bs))
  | PyList xs => ret (Z.of_nat (List.length xs))
  | PyDict kvs => ret (Z.of_nat (List.length kvs))
  | _ => raise TypeError
  end.

(** [bytes(xs)] for a list [xs]: every item must be an integer in
    [range(0, 256)]. *)
Fixpoint bytes_of_list (xs : list pyval) : result (list Z) :=
  match xs with
  | [] => ret []
  | x :: xs' =>
      if isinstance_int x then
        if is_byte (int_value x) then
          bind (bytes_of_list xs') (fun bs => ret (int_value x :: bs))
        else raise (ValueError "bytes must be in range(0, 256)")
      else raise TypeError
  end.

(** [bytes(x)] *)
Definition bytes (x : pyval) : result (list Z) :=
  match x with
  | PyBytes bs => ret bs
  | PyList xs => bytes_of_list xs
  | PyInt n => if n <? 0 then raise (ValueError "negative count")
               else ret (repeat 0 (Z.to_nat n))
  | PyBool b => ret (repeat 0 (if b then 1%nat else 0%nat))
  | _ => raise TypeError
  end.

(** [x[k]] with a string key. *)
Fixpoint assoc (k : string) (kvs : list (string * pyval)) : option pyval :=
  match kvs with
  | [] => None
  | (k', v) :: kvs' => if String.eqb k k' then Some v else assoc k kvs'
  end.

Definition getitem_str (x : pyval) (k : string) : result pyval :=
  match x with
  | PyDict kvs =>
      match assoc k kvs with
      | Some v => ret v
      | None => raise KeyError
      end
  | _ => raise TypeError
  end.

(** Position of index [i] in a sequence of length [n]: negative
    indexes count from the end. *)
Definition seq_index (n : nat) (i : Z) : option nat :=
  let i' := if i <? 0 then i + Z.of_nat n else i in
  if (0 <=? i') && (i' <? Z.of_nat n) then Some (Z.to_nat i') else None.

(** [x[i]] with an integer index. *)
Definition getitem_int (x : pyval) (i : Z) : result pyval :=
  match x with
  | PyList xs =>
      match seq_index (List.length xs) i with
      | Some n =>
          match nth_error xs n with
          | Some v => ret v
          | None => raise IndexError
          end
      | None => raise IndexError
      end
  | PyBytes bs =>
      match seq_index (List.length bs) i with
      | Some n =>
          match nth_error bs n with
          | Some v => ret (PyInt v)
          | None => raise IndexError
          end
      | None => raise IndexError
      end
  | PyStr s =>
      match seq_index (String.length s) i with
      | Some n =>
          match String.get n s with
          | Some c => ret (PyStr (String c EmptyString))
          | None => raise IndexError
          end
      | None => raise IndexError
      end
  | PyDict _ => raise KeyError
  | _ => raise TypeError
  end.

(** *** Floats: [int / int] and [int(float)]

    Python floats are IEEE 754 binary64; true division of two integers
    returns the quotient rounded to the nearest float. *)
Definition prec : Z := 53.
Definition emax : Z := 1024.

Definition exact_of_int (n : Z) : spec_float :=
  match n with
  | Z0 => S754_zero false
  | Zpos p => S754_finite false p 0
  | Zneg p => S754_finite true p 0
  end.

(** [a / b] for integers [a] and [b]. *)
Definition int_truediv (a b : Z) : result spec_float :=
  if b =? 0 then raise ZeroDivisionError
  else
    match SFdiv prec emax (exact_of_int a) (exact_of_int b) with
    | S754_infinity _ => raise OverflowError
    | f => ret f
    end.

(** [int(f)]: truncation towards zero. *)
Definition int_of_float (f : spec_float) : result Z :=
  match f with
  | S754_zero _ => ret 0
  | S754_infinity _ => raise OverflowError
  | S754_nan => raise (ValueError "cannot convert float NaN to integer")
  | S754_finite s m e =>
      let a := if 0 <=? e then Z.shiftl (Zpos m) e else Z.shiftr (Zpos m) (- e) in
      ret (if s then - a else a)
  end.

End Py.

Import Py.

Declare Scope result_scope.
Delimit Scope result_scope with result.
Notation "x <- e ;; k" := (Py.bind e (fun x => k))
  (at level 61, e at next level, right associativity) : result_scope.

(** ** The frame codec *)

(** [class LedCommand(IntEnum)] *)
Module LedCommand.
Definition POWER : Z := 0x01.
Definition BRIGHTNESS : Z := 0x04.
Definition COLOR : Z := 0x05.
End LedCommand.

(** [class LedMode(IntEnum)] *)
Module LedMode.
Definition MANUAL : Z := 0x02.
Definition MICROPHONE : Z := 0x06.
Definition SCENES : Z := 0x05.
Definition SEGMENTS : Z := 0x15.
End LedMode.

Definition SEGMENTED_MODELS : list string :=
  ["H6053"; "H6072"; "H6102"; "H6199"; "H617A"; "H617C"].
Definition PERCENT_MODELS : list string := ["H617A"].

(** [for b in frame: checksum ^= b], starting from 0. *)
Definition xor_all (frame : list Z) : Z := fold_left Z.lxor frame 0.

(** The two [isinstance] tests and the length test that open
    [_prepareSinglePacketData]. *)
Definition check_arguments (cmd payload : pyval) : result unit :=
  (if negb (isinstance_int cmd) then raise (ValueError "Invalid command")
   else if negb (isinstance_bytes payload)
           && negb (isinstance_list payload && all_int payload)
   then raise (ValueError "Invalid payload")
   else
     n <- Py.len payload ;;
     if 17 <? n then raise (ValueError "Payload too long") else ret tt)%result.

(** What follows the tests: masking, conversion, padding, checksum. *)
Definition assemble_frame (cmd payload : pyval) : result (list Z) :=
  (let cmd := Z.land (int_value cmd) 0xFF in
   payload <- Py.bytes payload ;;
   let frame := [0x33; cmd] ++ payload in
   let frame := frame ++ repeat 0 (Z.to_nat (19 - Z.of_nat (List.length frame))) in
   let checksum := xor_all frame in
   ret (frame ++ [Z.land checksum 0xFF]))%result.

Definition _prepareSinglePacketData (cmd payload : pyval) : result (list Z) :=
  (_ <- check_arguments cmd payload ;;
   assemble_frame cmd payload)%result.

(** ** [EFFECT_PARSE = re.compile(r"\[(\d+)/(\d+)/(\d+)/(\d+)]")]

    Every digit group is followed by a character that is not a digit,
    so a match at a given position takes the maximal run of digits for
    each group; [search] returns the match at the leftmost position
    that has one. Strings are sequences of 8-bit characters here, and
    [\d] is an ASCII digit. *)
Module EffectParse.

Definition is_digit (c : ascii) : bool :=
  let n := nat_of_ascii c in (48 <=? n)%nat && (n <=? 57)%nat.

Fixpoint span_digits (s : string) : string * string :=
  match s with
  | EmptyString => (EmptyString, EmptyString)
  | String c s' =>
      if is_digit c then
        let (d, r) := span_digits s' in (String c d, r)
      else (EmptyString, s)
  end.

(** [\d+] *)
Definition digits (s : string) : option (string * string) :=
  match span_digits s with
  | (EmptyString, _) => None
  | (d, r) => Some (d, r)
  end.

Definition literal (c : ascii) (s : string) : option string :=
  match s with
  | String c' s' => if Ascii.eqb c c' then Some s' else None
  | EmptyString => None
  end.

Definition match_here (s : string) : option (string * string * string * string) :=
  match literal "[" s with None => None | Some s =>
  match digits s with None => None | Some (g1, s) =>
  match literal "/" s with None => None | Some s =>
  match digits s with None => None | Some (g2, s) =>
  match literal "/" s with None => None | Some s =>
  match digits s with None => None | Some (g3, s) =>
  match literal "/" s with None => None | Some s =>
  match digits s with None => None | Some (g4, s) =>
  match literal "]" s with None => None | Some _ =>
  Some (g1, g2, g3, g4)
  end end end end end end end end end.

Fixpoint search (s : string) : option (string * string * string * string) :=
  match match_here s with
  | Some g => Some g
  | None =>
      match s with
      | EmptyString => None
      | String _ s' => search s'
      end
  end.

(** The number that a group of decimal digits writes. *)
Definition digits_value (d : string) : Z :=
  fold_left (fun acc c => 10 * acc + (Z.of_nat (nat_of_ascii c) - 48))
            (list_ascii_of_string d) 0.

(** [int] refuses a text of more than 4300 digits, leading zeros
    counted: the default of [sys.set_int_max_str_digits]. *)
Definition max_str_digits : nat := 4300.

Definition too_many_digits (n : nat) : exn :=
  ValueError
    ("Exceeds the limit (4300 digits) for integer string conversion: value has "
       ++ NilEmpty.string_of_uint (Nat.to_uint n)
       ++ " digits; use sys.set_int_max_str_digits() to increase the limit").

(** [int(group)] for a group of decimal digits. *)
Definition int_of_digits (d : string) : result Z :=
  if (max_str_digits <? String.length d)%nat
  then raise (too_many_digits (String.length d))
  else ret (digits_value d).

End EffectParse.

(** ** The entity, its surroundings, and calls that change them *)

(** The attributes of a [GoveeBluetoothLight] that the calls read or
    assign. *)
Record entity : Type := mkEntity {
  _mac : string;
  _model : string;
  _is_segmented : bool;
  _use_percent : bool;
  _state : option bool;
  _brightness : option Z;
  _rgb_color : option (Z * Z * Z)
}.

(** [__init__]: [address] is [hub.address], [model] is
    [config_entry.data["model"]]. *)
Definition __init__ (address model : string) : entity :=
  {| _mac := address;
     _model := model;
     _is_segmented := existsb (String.eqb model) SEGMENTED_MODELS;
     _use_percent := existsb (String.eqb model) PERCENT_MODELS;
     _state := None;
     _brightness := None;
     _rgb_color := None |}.

(** [self._state = v], [self._brightness = v], [self._rgb_color = v] *)
Definition assign_state (v : option bool) (self : entity) : entity :=
  {| _mac := _mac self; _model := _model self;
     _is_segmented := _is_segmented self; _use_percent := _use_percent self;
     _state := v;
     _brightness := _brightness self;
     _rgb_color := _rgb_color self |}.

Definition assign_brightness (v : option Z) (self : entity) : entity :=
  {| _mac := _mac self; _model := _model self;
     _is_segmented := _is_segmented self; _use_percent := _use_percent self;
     _state := _state self;
     _brightness := v;
     _rgb_color := _rgb_color self |}.

Definition assign_rgb_color (v : option (Z * Z * Z)) (self : entity) : entity :=
  {| _mac := _mac self; _model := _model self;
     _is_segmented := _is_segmented self; _use_percent := _use_percent self;
     _state := _state self;
     _brightness := _brightness self;
     _rgb_color := v |}.

(** A link handle: the [BleakClient] that [establish_connection]
    returned. *)
Definition link : Type := nat.

(** What the entity calls but does not define. [establish_connection n]
    and [write_gatt_char n] give the outcome of the call made after [n]
    earlier ones; [read_catalog model] is the parsed content of
    [jsons/<model>.json] ([read_text], then [json.loads]).
    [prepareMultiplePacketsData] comes from the module [govee_utils],
    which the calls here only use. *)
Record env : Type := mkEnv {
  establish_connection : nat -> result link;
  write_gatt_char : nat -> link -> list Z -> result unit;
  read_catalog : string -> result pyval;
  b64decode : pyval -> result (list Z);
  prepareMultiplePacketsData : Z -> list Z -> list Z -> result (list (list Z))
}.

(** The radio side: how many connections and writes were attempted so
    far and, in order, every frame that a write delivered, with the
    link it went over. *)
Record world : Type := mkWorld {
  conn_calls : nat;
  write_calls : nat;
  written : list (link * list Z)
}.

Definition state : Type := (entity * world)%type.

(** A call runs from a state to a result and a state; an exception
    keeps the state reached when it was raised. *)
Definition M (A : Type) : Type := state -> result A * state.

Definition mret {A : Type} (a : A) : M A := fun s => (inr a, s).
Definition mraise {A : Type} (e : exn) : M A := fun s => (inl e, s).
Definition mbind {A B : Type} (m : M A) (k : A -> M B) : M B :=
  fun s =>
    match m s with
    | (inl e, s') => (inl e, s')
    | (inr a, s') => k a s'
    end.
Definition lift {A : Type} (r : result A) : M A := fun s => (r, s).
Definition get_self : M entity := fun s => (inr (fst s), s).
Definition set_self (f : entity -> entity) : M unit :=
  fun s => (inr tt, (f (fst s), snd s)).

Declare Scope call_scope.
Delimit Scope call_scope with call.
Notation "x <~ m ;; k" := (mbind m (fun x => k))
  (at level 61, m at next level, right associativity) : call_scope.

(** The keyword arguments of a turn-on call, typed as the light
    platform hands them over: an integer brightness, a triple of
    integers, the name of an effect. *)
Record kwargs : Type := mkKwargs {
  ATTR_BRIGHTNESS : option Z;
  ATTR_RGB_COLOR : option (Z * Z * Z);
  ATTR_EFFECT : option string
}.

Section Light.

Variable E : env.

(** [try: ... except Exception: ...]: the outcome of [m] as a value,
    unless it is an exception that the handler does not catch. *)
Definition try_except_Exception {A : Type} (m : M A) : M (result A) :=
  fun s =>
    match m s with
    | (inl e, s') => if is_Exception e then (inr (inl e), s') else (inl e, s')
    | (inr a, s') => (inr (inr a), s')
    end.

(** [await bleak_retry_connector.establish_connection(...)] *)
Definition await_establish_connection : M link :=
  fun s =>
    let w := snd s in
    (establish_connection E (conn_calls w),
     (fst s, {| conn_calls := S (conn_calls w);
                write_calls := write_calls w;
                written := written w |})).

(** The body of [for _ in range(n)] in [_connectBluetooth]; leaving
    the loop reaches the end of the function, which returns [None]. *)
Fixpoint connect_loop (n : nat) : M (option link) :=
  match n with
  | O => mret None
  | S n' =>
      (r <~ try_except_Exception await_establish_connection ;;
       match r with
       | inr client => mret (Some client)
       | inl _ => connect_loop n'
       end)%call
  end.

Definition _connectBluetooth : M (option link) := connect_loop 3.

(** [await client.write_gatt_char(UUID_CONTROL_CHARACTERISTIC, command, False)];
    [None] has no attribute [write_gatt_char]. *)
Definition await_write_gatt_char (client : option link) (command : list Z) : M unit :=
  match client with
  | None => mraise AttributeError
  | Some c =>
      fun s =>
        let w := snd s in
        let r := write_gatt_char E (write_calls w) c command in
        (r,
         (fst s, {| conn_calls := conn_calls w;
                    write_calls := S (write_calls w);
                    written := match r with
                               | inr _ => written w ++ [(c, command)]
                               | inl _ => written w
                               end |}))
  end.

(** [int(brightness * 100 / 255)] *)
Definition brightness_percent (brightness : Z) : result Z :=
  (f <- int_truediv (brightness * 100) 255 ;; int_of_float f)%result.

(** [if ATTR_BRIGHTNESS in kwargs: ...] *)
Definition turn_on_brightness (kw : kwargs) (commands : list (list Z))
  : M (list (list Z)) :=
  match ATTR_BRIGHTNESS kw with
  | None => mret commands
  | Some brightness =>
      (self <~ get_self ;;
       commands <~
         (if _use_percent self then
            brightnessPercent <~ lift (brightness_percent brightness) ;;
            frame <~ lift (_prepareSinglePacketData (PyInt LedCommand.BRIGHTNESS)
                                                    (PyList [PyInt brightnessPercent])) ;;
            mret (commands ++ [frame])
          else
            frame <~ lift (_prepareSinglePacketData (PyInt LedCommand.BRIGHTNESS)
                                                    (PyList [PyInt brightness])) ;;
            mret (commands ++ [frame])) ;;
       _ <~ set_self (assign_brightness (Some brightness)) ;;
       mret commands)%call
  end.

(** [if ATTR_RGB_COLOR in kwargs: ...] *)
Definition turn_on_color (kw : kwargs) (commands : list (list Z))
  : M (list (list Z)) :=
  match ATTR_RGB_COLOR kw with
  | None => mret commands
  | Some (red, green, blue) =>
      (self <~ get_self ;;
       commands <~
         (if _is_segmented self then
            frame <~ lift (_prepareSinglePacketData (PyInt LedCommand.COLOR)
                       (PyList [PyInt LedMode.SEGMENTS; PyInt 0x01;
                                PyInt red; PyInt green; PyInt blue;
                                PyInt 0x00; PyInt 0x00; PyInt 0x00; PyInt 0x00;
                                PyInt 0x00; PyInt 0xFF; PyInt 0x7F])) ;;
            mret (commands ++ [frame])
          else
            frame <~ lift (_prepareSinglePacketData (PyInt LedCommand.COLOR)
                       (PyList [PyInt LedMode.MANUAL;
                                PyInt red; PyInt green; PyInt blue])) ;;
            mret (commands ++ [frame])) ;;
       _ <~ set_self (assign_rgb_color (Some (red, green, blue))) ;;
       mret commands)%call
  end.

(** The catalog walk of the effect branch, down to [specialEffect]. *)
Definition lookup_special_effect (json_data : pyval) (indexes : Z * Z * Z * Z)
  : result pyval :=
  (let '(i0, i1, i2, i3) := indexes in
   data <- getitem_str json_data "data" ;;
   categories <- getitem_str data "categories" ;;
   category <- getitem_int categories i0 ;;
   scenes <- getitem_str category "scenes" ;;
   scene <- getitem_int scenes i1 ;;
   lightEffects <- getitem_str scene "lightEffects" ;;
   lightEffect <- getitem_int lightEffects i2 ;;
   specialEffects <- getitem_str lightEffect "specialEffect" ;;
   getitem_int specialEffects i3)%result.

(** [if ATTR_EFFECT in kwargs: ...] *)
Definition turn_on_effect (kw : kwargs) (commands : list (list Z))
  : M (list (list Z)) :=
  match ATTR_EFFECT kw with
  | None => mret commands
  | Some effect =>
      if String.eqb effect "" then mret commands
      else
        match EffectParse.search effect with
        | None => mret commands
        | Some (g1, g2, g3, g4) =>
            (i0 <~ lift (EffectParse.int_of_digits g1) ;;
             i1 <~ lift (EffectParse.int_of_digits g2) ;;
             i2 <~ lift (EffectParse.int_of_digits g3) ;;
             i3 <~ lift (EffectParse.int_of_digits g4) ;;
             let indexes := (i0, i1, i2, i3) in
             self <~ get_self ;;
             json_data <~ lift (read_catalog E (_model self)) ;;
             specialEffect <~ lift (lookup_special_effect json_data indexes) ;;
             packets <~ lift (scenceParam <- getitem_str specialEffect "scenceParam" ;;
                              blob <- b64decode E scenceParam ;;
                              prepareMultiplePacketsData E 0xa3 [0x02] blob)%result ;;
             mret (commands ++ packets))%call
        end
  end.

(** Everything in [async_turn_on] before the sending loop. *)
Definition build_commands (kw : kwargs) : M (list (list Z)) :=
  (power <~ lift (_prepareSinglePacketData (PyInt LedCommand.POWER) (PyList [PyInt 0x1])) ;;
   let commands := [power] in
   _ <~ set_self (assign_state (Some true)) ;;
   commands <~ turn_on_brightness kw commands ;;
   commands <~ turn_on_color kw commands ;;
   turn_on_effect kw commands)%call.

(** [for command in commands: client = await self._connectBluetooth(); ...] *)
Fixpoint send_commands (commands : list (list Z)) : M unit :=
  match commands with
  | [] => mret tt
  | command :: rest =>
      (client <~ _connectBluetooth ;;
       _ <~ await_write_gatt_char client command ;;
       send_commands rest)%call
  end.

Definition async_turn_on (kw : kwargs) : M unit :=
  (commands <~ build_commands kw ;;
   send_commands commands)%call.

Definition async_turn_off : M unit :=
  (client <~ _connectBluetooth ;;
   frame <~ lift (_prepareSinglePacketData (PyInt LedCommand.POWER) (PyList [PyInt 0x0])) ;;
   _ <~ await_write_gatt_char client frame ;;
   set_self (assign_state (Some false)))%call.

End Light.

(** ** Vocabulary of the statements *)

(** The byte values of a payload: the content of a [bytes] object, or
    the items of a list of integers, when every one lies in
    [0, 256). *)
Definition byte_values (payload : pyval) : option (list Z) :=
  match payload with
  | PyBytes bs => if forallb is_byte bs then Some bs else None
  | PyList xs =>
      if forallb (fun x => isinstance_int x && is_byte (int_value x)) xs
      then Some (map int_value xs) else None
  | _ => None
  end.

(** The two type tests on the payload, as one boolean. *)
Definition payload_type_ok (payload : pyval) : bool :=
  isinstance_bytes payload || (isinstance_list payload && all_int payload).

(** Brightness and colour channels within a byte, as the light
    platform guarantees them. *)
Definition valid_levels (kw : kwargs) : Prop :=
  match ATTR_BRIGHTNESS kw with
  | Some b => 0 <= b <= 255
  | None => True
  end /\
  match ATTR_RGB_COLOR kw with
  | Some (r, g, b) => 0 <= r <= 255 /\ 0 <= g <= 255 /\ 0 <= b <= 255
  | None => True
  end.

(** The level that goes into the Brightness frame. *)
Definition brightness_level (self : entity) (brightness : Z) : result Z :=
  if _use_percent self then brightness_percent brightness else inr brightness.

(** The payload of the Color frame. *)
Definition color_payload (self : entity) (red green blue : Z) : pyval :=
  if _is_segmented self then
    PyList [PyInt LedMode.SEGMENTS; PyInt 0x01; PyInt red; PyInt green; PyInt blue;
            PyInt 0x00; PyInt 0x00; PyInt 0x00; PyInt 0x00; PyInt 0x00;
            PyInt 0xFF; PyInt 0x7F]
  else PyList [PyInt LedMode.MANUAL; PyInt red; PyInt green; PyInt blue].

(** The entity after the assignments of a turn-on call. *)
Definition recorded (kw : kwargs) (self : entity) : entity :=
  let self := assign_state (Some true) self in
  let self := match ATTR_BRIGHTNESS kw with
              | Some b => assign_brightness (Some b) self
              | None => self
              end in
  match ATTR_RGB_COLOR kw with
  | Some c => assign_rgb_color (Some c) self
  | None => self
  end.

(** The effect block resolves the name [effect] for a model to the
    packets that it appends: the index path found in the name,
    converted, looked up in the catalog of the model, its blob decoded
    and split. *)
Definition effect_resolves (E : env) (model effect : string) (packets : list (list Z)) : Prop :=
  exists g1 g2 g3 g4 i0 i1 i2 i3 json_data specialEffect scenceParam blob,
    EffectParse.search effect = Some (g1, g2, g3, g4) /\
    EffectParse.int_of_digits g1 = inr i0 /\
    EffectParse.int_of_digits g2 = inr i1 /\
    EffectParse.int_of_digits g3 = inr i2 /\
    EffectParse.int_of_digits g4 = inr i3 /\
    read_catalog E model = inr json_data /\
    lookup_special_effect json_data (i0, i1, i2, i3) = inr specialEffect /\
    getitem_str specialEffect "scenceParam" = inr scenceParam /\
    b64decode E scenceParam = inr blob /\
    prepareMultiplePacketsData E 0xa3 [0x02] blob = inr packets.


(** One connect loop per frame: starting with connection call number
    [from], the link of each frame is the first success of a run of
    at most three calls made for that frame, after failures that were
    caught; the run of the next frame starts with the next call, and
    [upto] calls were made in the end. *)
Fixpoint linked_per_frame (E : env) (from : nat) (links : list link) (upto : nat) : Prop :=
  match links with
  | [] => upto = from
  | l :: rest =>
      exists k,
        (k < 3)%nat /\
        (forall i, (i < k)%nat ->
           exists e, establish_connection E (from + i) = inl e /\ is_Exception e = true) /\
        establish_connection E (from + k) = inr l /\
        linked_per_frame E (from + S k) rest upto
  end.

(** The writes that a call added to the log. *)
Definition sent (before after : state) : list (link * list Z) :=
  skipn (List.length (written (snd before))) (written (snd after)).

(** All entries of a log went over one link. *)
Definition one_link (log : list (link * list Z)) : Prop :=
  exists l, Forall (fun p => fst p = l) log.

(** One logical command: a turn-on call with its arguments, or a
    turn-off call. *)
Inductive intent : Type :=
| TurnOn (kw : kwargs)
| TurnOff.

Definition run_intent (E : env) (i : intent) : M unit :=
  match i with
  | TurnOn kw => async_turn_on E kw
  | TurnOff => async_turn_off E
  end.

(** ** Sample surroundings, for running the calls *)

(** A catalog with one category, one scene, one light effect and one
    special effect. *)
Definition sample_catalog : pyval :=
  PyDict [("data", PyDict [("categories", PyList [
    PyDict [("categoryName", PyStr "Life");
            ("scenes", PyList [
              PyDict [("sceneName", PyStr "Sunrise");
                      ("lightEffects", PyList [
                        PyDict [("scenceName", PyStr "A");
                                ("specialEffect", PyList [
                                  PyDict [("scenceParam", PyStr "AQID")]])]])]])]])])].

(** Stand-ins for the decoder and the splitter: the blob of every
    string is [1, 2, 3], and a blob travels as one packet made of the
    marker, the prefix and the blob. *)
Definition sample_b64decode (v : pyval) : result (list Z) :=
  match v with
  | PyStr _ => inr [1; 2; 3]
  | _ => inl TypeError
  end.

Definition sample_packets (marker : Z) (prefix blob : list Z) : result (list (list Z)) :=
  inr [marker :: prefix ++ blob].

(** Every connection succeeds and returns a new link; every write
    succeeds. *)
Definition env_fresh_links : env :=
  {| establish_connection := fun n => inr n;
     write_gatt_char := fun _ _ _ => inr tt;
     read_catalog := fun _ => inr sample_catalog;
     b64decode := sample_b64decode;
     prepareMultiplePacketsData := sample_packets |}.

(** The device is out of reach: no connection succeeds. *)
Definition env_unreachable : env :=
  {| establish_connection := fun _ => inl BleakError;
     write_gatt_char := fun _ _ _ => inr tt;
     read_catalog := fun _ => inr sample_catalog;
     b64decode := sample_b64decode;
     prepareMultiplePacketsData := sample_packets |}.

(** The first two connections fail, the later ones succeed. *)
Definition env_third_attempt : env :=
  {| establish_connection := fun n => if (n <? 2)%nat then inl BleakError else inr n;
     write_gatt_char := fun _ _ _ => inr tt;
     read_catalog := fun _ => inr sample_catalog;
     b64decode := sample_b64decode;
     prepareMultiplePacketsData := sample_packets |}.

(** A flat-colour, raw-brightness model and the segmented,
    percent-brightness one, as [__init__] leaves them. *)
Definition sample_flat : entity := __init__ "A4:C1:38:00:00:01" "H6001".
Definition sample_h617a : entity := __init__ "A4:C1:38:00:00:02" "H617A".

Definition world0 : world := {| conn_calls := 0; write_calls := 0; written := [] |}.


(** ** The rest of the entity: properties and the effect list *)

(** [s.replace(c, "")] for a one-character [c]: every occurrence goes. *)
Fixpoint remove_char (c : ascii) (s : string) : string :=
  match s with
  | EmptyString => EmptyString
  | String c' s' =>
      if Ascii.eqb c c' then remove_char c s' else String c' (remove_char c s')
  end.

(** The read-only properties of the entity. *)
Module Entity.

Definition name (self : entity) : string := "GOVEE Light".
Definition unique_id (self : entity) : string := remove_char ":" (_mac self).
Definition brightness (self : entity) : option Z := _brightness self.
Definition rgb_color (self : entity) : option (Z * Z * Z) := _rgb_color self.
Definition is_on (self : entity) : option bool := _state self.

End Entity.

(** What a [for] loop over [x] visits: the items of a list, the keys of
    a dict, the characters of a string, the integers of a bytes object;
    anything else is not iterable. *)
Fixpoint chars (s : string) : list pyval :=
  match s with
  | EmptyString => []
  | String c s' => PyStr (String c EmptyString) :: chars s'
  end.

Definition iter (x : pyval) : result (list pyval) :=
  match x with
  | PyList xs => ret xs
  | PyDict kvs => ret (map (fun kv => PyStr (fst kv)) kvs)
  | PyStr s => ret (chars s)
  | PyBytes bs => ret (map PyInt bs)
  | _ => raise TypeError
  end.

(** [str(n)] for an index that [enumerate] hands out. *)
Definition str_of_index (n : nat) : string :=
  NilEmpty.string_of_uint (Nat.to_uint n).

(** An index whose text [int] accepts: one of at most 4300 digits. *)
Definition within_int_limit (n : nat) : Prop :=
  Z.of_nat n < 10 ^ Z.of_nat EffectParse.max_str_digits.

(** A replacement field of an f-string, [f"{v}"]. The text of a
    string, an integer, a boolean and [None] is written out; the text
    of the other values (floats and containers) is [repr_rest v]. *)
Definition format_field (repr_rest : pyval -> string) (v : pyval) : string :=
  match v with
  | PyStr s => s
  | PyInt z => NilZero.string_of_int (Z.to_int z)
  | PyBool true => "True"
  | PyBool false => "False"
  | PyNone => "None"
  | _ => repr_rest v
  end.

(** [f"{cn} - {sn} - {ln} [{c}/{s}/{l}/{x}]"], the names already
    formatted. *)
Definition effect_label (cn sn ln : string) (c s l x : nat) : string :=
  cn ++ " - " ++ sn ++ " - " ++ ln ++ " ["
     ++ str_of_index c ++ "/" ++ str_of_index s ++ "/"
     ++ str_of_index l ++ "/" ++ str_of_index x ++ "]".

(** [for i, x in enumerate(xs): ...] where the body appends to one
    list: the appended items, in order, or the first exception. *)
Fixpoint for_enumerate {A : Type} (body : nat -> pyval -> result (list A))
    (i : nat) (xs : list pyval) : result (list A) :=
  match xs with
  | [] => ret []
  | x :: xs' =>
      (here <- body i x ;;
       rest <- for_enumerate body (S i) xs' ;;
       ret (here ++ rest))%result
  end.

Section EffectList.

Variable repr_rest : pyval -> string.
Variable E : env.

(** The loops of [_load_effect_list] over the parsed catalog. *)
Definition effect_list_of (json_data : pyval) : result (list string) :=
  (data <- getitem_str json_data "data" ;;
   categories <- getitem_str data "categories" ;;
   categories <- iter categories ;;
   for_enumerate (fun categoryIdx category =>
     scenes <- getitem_str category "scenes" ;;
     scenes <- iter scenes ;;
     for_enumerate (fun sceneIdx scene =>
       lightEffects <- getitem_str scene "lightEffects" ;;
       lightEffects <- iter lightEffects ;;
       for_enumerate (fun leffectIdx lightEffect =>
         specialEffects <- getitem_str lightEffect "specialEffect" ;;
         specialEffects <- iter specialEffects ;;
         for_enumerate (fun seffectIdx specialEffect =>
           categoryName <- getitem_str category "categoryName" ;;
           sceneName <- getitem_str scene "sceneName" ;;
           scenceName <- getitem_str lightEffect "scenceName" ;;
           ret [effect_label (format_field repr_rest categoryName)
                             (format_field repr_rest sceneName)
                             (format_field repr_rest scenceName)
                             categoryIdx sceneIdx leffectIdx seffectIdx])
         0%nat specialEffects)
       0%nat lightEffects)
     0%nat scenes)
   0%nat categories)%result.

(** [_load_effect_list]: read and parse [jsons/<model>.json], then
    list the effects. *)
Definition _load_effect_list (self : entity) : result (list string) :=
  (json_data <- read_catalog E (_model self) ;;
   effect_list_of json_data)%result.

End EffectList.

(** A string without the character that opens an index path. *)
Fixpoint no_bracket (s : string) : bool :=
  match s with
  | EmptyString => true
  | String c s' => negb (Ascii.eqb c "[") && no_bracket s'
  end.

(** A stand-in for the text of floats and containers. *)
Definition sample_repr (v : pyval) : string := "?".

(** The attributes that [__init__] sets once: address, model and the
    two capability flags. *)
Definition same_identity (a b : entity) : Prop :=
  _mac a = _mac b /\ _model a = _model b /\
  _is_segmented a = _is_segmented b /\ _use_percent a = _use_percent b.

(** The turn-on arguments without the effect. *)
Definition without_effect (kw : kwargs) : kwargs :=
  {| ATTR_BRIGHTNESS := ATTR_BRIGHTNESS kw;
     ATTR_RGB_COLOR := ATTR_RGB_COLOR kw;
     ATTR_EFFECT := None |}.

(** Connections succeed; the second write fails, the others succeed. *)
Definition env_second_write_fails : env :=
  {| establish_connection := fun n => inr n;
     write_gatt_char := fun n _ _ => if (n =? 1)%nat then inl BleakError else inr tt;
     read_catalog := fun _ => inr sample_catalog;
     b64decode := sample_b64decode;
     prepareMultiplePacketsData := sample_packets |}.

(** The catalog file cannot be read. *)
Definition env_no_catalog : env :=
  {| establish_connection := fun n => inr n;
     write_gatt_char := fun _ _ _ => inr tt;
     read_catalog := fun _ => inl OSError;
     b64decode := sample_b64decode;
     prepareMultiplePacketsData := sample_packets |}.

(** What follows a group of digits in the pattern is never a digit. *)
Definition stops_digits (rest : string) : Prop :=
  match rest with
  | EmptyString => True
  | String c _ => EffectParse.is_digit c = false
  end.


(** The names that label the light effect at (c, s, l): those of its
    category, of its scene and its own, reached as turn-on walks the
    catalog. *)
Definition path_names (json_data : pyval) (c s l : nat) : result (pyval * pyval * pyval) :=
  (data <- getitem_str json_data "data" ;;
   categories <- getitem_str data "categories" ;;
   category <- getitem_int categories (Z.of_nat c) ;;
   scenes <- getitem_str category "scenes" ;;
   scene <- getitem_int scenes (Z.of_nat s) ;;
   lightEffects <- getitem_str scene "lightEffects" ;;
   lightEffect <- getitem_int lightEffects (Z.of_nat l) ;;
   categoryName <- getitem_str category "categoryName" ;;
   sceneName <- getitem_str scene "sceneName" ;;
   scenceName <- getitem_str lightEffect "scenceName" ;;
   ret (categoryName, sceneName, scenceName))%result.

(** The container in which the light effect at (c, s, l) keeps its
    special effects, reached as turn-on walks the catalog. *)
Definition special_effects_at (json_data : pyval) (c s l : nat) : result pyval :=
  (data <- getitem_str json_data "data" ;;
   categories <- getitem_str data "categories" ;;
   category <- getitem_int categories (Z.of_nat c) ;;
   scenes <- getitem_str category "scenes" ;;
   scene <- getitem_int scenes (Z.of_nat s) ;;
   lightEffects <- getitem_str scene "lightEffects" ;;
   lightEffect <- getitem_int lightEffects (Z.of_nat l) ;;
   getitem_str lightEffect "specialEffect")%result.

(** A series of calls on one entity, each started when the one before
    it has ended, whatever its outcome. *)
Fixpoint run_all (E : env) (calls : list intent) (s : state) : state :=
  match calls with
  | [] => s
  | i :: rest => run_all E rest (snd (run_intent E i s))
  end.

(** ** The configuration flow ([config_flow.py]) *)

Module ConfigFlow.

(** [s.replace(old, "")] for a non-empty [old]: the occurrences of
    [old] are found from left to right and do not overlap. [skip]
    counts the characters of a found occurrence still to drop. *)
Fixpoint remove_all_from (old : string) (skip : nat) (s : string) : string :=
  match s with
  | EmptyString => EmptyString
  | String c s' =>
      match skip with
      | S k => remove_all_from old k s'
      | O =>
          if String.prefix old s then remove_all_from old (String.length old - 1) s'
          else String c (remove_all_from old 0 s')
      end
  end.

Definition replace_with_empty (old s : string) : string := remove_all_from old 0 s.

(** [list.sort()] on strings: ascending in the order of [<=] on
    strings, character codes compared from the left. *)
Fixpoint insert (x : string) (l : list string) : list string :=
  match l with
  | [] => [x]
  | y :: l' => if String.leb x y then x :: l else y :: insert x l'
  end.

Fixpoint sort (l : list string) : list string :=
  match l with
  | [] => []
  | x :: l' => insert x (sort l')
  end.

(** [_load_available_models]: [iterdir] is the outcome of listing the
    directory [jsons] (the names of its files), [_available_models]
    the list held by the flow; the result is the list it holds
    afterwards. *)
Definition _load_available_models (iterdir : result (list string))
    (_available_models : list string) : result (list string) :=
  match _available_models with
  | _ :: _ => ret _available_models
  | [] =>
      (files <- iterdir ;;
       ret (sort (_available_models ++ map (replace_with_empty ".json") files)))%result
  end.

(** What a Bluetooth advertisement tells the flow. *)
Record service_info : Type := mkServiceInfo {
  address : string;
  name : string
}.

(** [address in self._discovered_devices] *)
Definition has_key (a : string) (d : list (string * string)) : bool :=
  existsb (fun kv => String.eqb a (fst kv)) d.

(** [self._discovered_devices[address]] *)
Fixpoint lookup (a : string) (d : list (string * string)) : option string :=
  match d with
  | [] => None
  | (k, v) :: d' => if String.eqb a k then Some v else lookup a d'
  end.

(** The loop of [async_step_ble] over the advertisements seen:
    [current_addresses] are the unique ids already configured,
    [_discovered_devices] the dict of the flow, in insertion order. *)
Fixpoint discover (current_addresses : list string)
    (_discovered_devices : list (string * string))
    (infos : list service_info) : list (string * string) :=
  match infos with
  | [] => _discovered_devices
  | discovery_info :: rest =>
      let a := address discovery_info in
      if negb (existsb (String.eqb a) current_addresses)
         && negb (has_key a _discovered_devices)
      then discover current_addresses
             (_discovered_devices ++ [(a, name discovery_info)]) rest
      else discover current_addresses _discovered_devices rest
  end.

(** A string without a dot. *)
Fixpoint no_dot (s : string) : bool :=
  match s with
  | EmptyString => true
  | String c s' => negb (Ascii.eqb c ".") && no_dot s'
  end.

(** The order of [list.sort()] on strings. *)
Definition string_le (a b : string) : Prop := String.leb a b = true.

(** The name under which the first advertisement from address [a]
    announces itself. *)
Definition first_name (a : string) (infos : list service_info) : option string :=
  option_map name (find (fun i => String.eqb a (address i)) infos).

End ConfigFlow.

(** ** The frame codec: proofs *)

Lemma land_255_byte (x : Z) : 0 <= Z.land x 0xFF < 256.
Proof.
  change 0xFF with (Z.ones 8). rewrite Z.land_ones by lia.
  change (2 ^ 8) with 256. apply Z.mod_pos_bound. lia.
Qed.

Lemma land_255_id (x : Z) : 0 <= x < 256 -> Z.land x 0xFF = x.
Proof.
  intros H. change 0xFF with (Z.ones 8). rewrite Z.land_ones by lia.
  change (2 ^ 8) with 256. apply Z.mod_small. exact H.
Qed.

Lemma lt_256_log2 (x : Z) : 0 <= x -> (x < 256 <-> Z.log2 x < 8).
Proof.
  intros Hx. destruct (Z.eq_dec x 0) as [->|Hn].
  - cbn. lia.
  - change 256 with (2 ^ 8). apply Z.log2_lt_pow2. lia.
Qed.

Lemma lxor_byte (a b : Z) : 0 <= a < 256 -> 0 <= b < 256 -> 0 <= Z.lxor a b < 256.
Proof.
  intros [Ha0 Ha] [Hb0 Hb].
  assert (H0 : 0 <= Z.lxor a b) by (apply Z.lxor_nonneg; tauto).
  split; [exact H0|].
  apply lt_256_log2; [exact H0|].
  apply lt_256_log2 in Ha; [|exact Ha0]. apply lt_256_log2 in Hb; [|exact Hb0].
  pose proof (Z.log2_lxor a b Ha0 Hb0). lia.
Qed.

Lemma fold_lxor_byte (l : list Z) :
  wf_bytes l -> forall acc, 0 <= acc < 256 -> 0 <= fold_left Z.lxor l acc < 256.
Proof.
  induction 1 as [|x l Hx _ IH]; intros acc Hacc; simpl.
  - exact Hacc.
  - apply IH. apply lxor_byte; assumption.
Qed.

Lemma xor_all_byte (l : list Z) : wf_bytes l -> 0 <= xor_all l < 256.
Proof. intros H. apply fold_lxor_byte; [exact H | lia]. Qed.

Lemma is_byte_iff (z : Z) : is_byte z = true <-> 0 <= z < 256.
Proof. unfold is_byte. rewrite andb_true_iff, Z.leb_le, Z.ltb_lt. tauto. Qed.

Lemma bytes_of_list_values (xs : list pyval) :
  forallb (fun x => isinstance_int x && is_byte (int_value x)) xs = true ->
  bytes_of_list xs = inr (map int_value xs).
Proof.
  induction xs as [|x xs IH]; simpl; intros H.
  - reflexivity.
  - apply andb_true_iff in H as [Hx Hxs].
    apply andb_true_iff in Hx as [Hi Hb].
    rewrite Hi, Hb, (IH Hxs). reflexivity.
Qed.

(** A payload of byte values passes the type tests, has the length of
    its values and converts to them. *)
Lemma byte_values_spec (payload : pyval) (bs : list Z) :
  byte_values payload = Some bs ->
  payload_type_ok payload = true /\
  Py.len payload = inr (Z.of_nat (List.length bs)) /\
  Py.bytes payload = inr bs /\
  wf_bytes bs.
Proof.
  destruct payload as [| | | | |cs|xs|]; simpl; try discriminate.
  - destruct (forallb is_byte cs) eqn:Hall; [|discriminate].
    intros [= <-]. repeat split.
    apply Forall_forall. intros z Hz.
    apply is_byte_iff. rewrite forallb_forall in Hall. auto.
  - destruct (forallb _ xs) eqn:Hall; [|discriminate].
    intros [= <-]. unfold payload_type_ok. simpl.
    repeat split.
    + rewrite forallb_forall in Hall |- *. intros x Hx.
      apply Hall in Hx. apply andb_true_iff in Hx. tauto.
    + unfold ret. now rewrite length_map.
    + now apply bytes_of_list_values.
    + apply Forall_forall. intros z Hz. apply in_map_iff in Hz as (x & <- & Hx).
      rewrite forallb_forall in Hall. apply Hall in Hx.
      apply andb_true_iff in Hx as [_ Hx]. now apply is_byte_iff.
Qed.

(** The 19 bytes that the checksum covers. *)
Lemma frame_body_spec (c : Z) (bs : list Z) :
  (List.length bs <= 17)%nat ->
  ([0x33; c] ++ bs)
    ++ repeat 0 (Z.to_nat (19 - Z.of_nat (List.length ([0x33; c] ++ bs))))
  = [0x33; c] ++ bs ++ repeat 0 (17 - List.length bs).
Proof.
  intros Hlen. rewrite <- app_assoc. do 2 f_equal.
  f_equal. simpl List.length. lia.
Qed.

Lemma check_arguments_ok (cmd payload : pyval) (n : Z) :
  isinstance_int cmd = true ->
  payload_type_ok payload = true ->
  Py.len payload = inr n ->
  n <= 17 ->
  check_arguments cmd payload = inr tt.
Proof.
  intros Hc Hp Hl Hn. unfold check_arguments, payload_type_ok in *.
  rewrite Hc. simpl negb.
  apply orb_true_iff in Hp.
  replace (negb (isinstance_bytes payload)
           && negb (isinstance_list payload && all_int payload)) with false
    by (destruct Hp as [-> | ->]; simpl; auto using andb_false_r).
  rewrite Hl. simpl. apply Z.ltb_ge in Hn. rewrite Hn. reflexivity.
Qed.

(** What the codec returns for a payload of at most 17 byte values. *)
Lemma prepareSinglePacketData_ok (cmd payload : pyval) (bs : list Z) :
  isinstance_int cmd = true ->
  byte_values payload = Some bs ->
  (List.length bs <= 17)%nat ->
  let body := [0x33; Z.land (int_value cmd) 0xFF] ++ bs ++ repeat 0 (17 - List.length bs) in
  _prepareSinglePacketData cmd payload = inr (body ++ [xor_all body]) /\
  List.length body = 19%nat /\ wf_bytes body.
Proof.
  intros Hc Hv Hlen body.
  destruct (byte_values_spec _ _ Hv) as (Ht & Hl & Hb & Hwf).
  assert (Hbody : wf_bytes body).
  { unfold body, wf_bytes. repeat constructor; try lia; try apply land_255_byte.
    apply Forall_app. split; [exact Hwf|].
    apply Forall_forall. intros z Hz. apply repeat_spec in Hz. lia. }
  split; [|split; [|exact Hbody]].
  - unfold _prepareSinglePacketData.
    rewrite (check_arguments_ok cmd payload _ Hc Ht Hl) by lia.
    unfold Py.bind at 1. unfold assemble_frame. rewrite Hb.
    unfold Py.bind, ret.
    rewrite frame_body_spec by exact Hlen. fold body.
    rewrite land_255_id by (apply xor_all_byte; exact Hbody). reflexivity.
  - unfold body. rewrite !length_app, repeat_length. simpl List.length. lia.
Qed.

Lemma firstn_length_app {A : Type} (l r : list A) :
  firstn (List.length l) (l ++ r) = l.
Proof. induction l as [|a l IH]; simpl; [reflexivity | now rewrite IH]. Qed.

(** C1. For every integer command code and every payload of at most 17
    byte values (a list of integers in 0..255, or a bytes object),
    [_prepareSinglePacketData] returns a frame of exactly 20 bytes,
    each in 0..255, that starts with 0x33, the low 8 bits of the
    command, the payload and zero padding, and whose byte 19 is the XOR
    of bytes 0 to 18. *)
Theorem prepareSinglePacketData_frame_checksum (cmd payload : pyval) (bs : list Z) :
  isinstance_int cmd = true ->
  byte_values payload = Some bs ->
  (List.length bs <= 17)%nat ->
  exists frame,
    _prepareSinglePacketData cmd payload = inr frame /\
    List.length frame = 20%nat /\
    wf_bytes frame /\
    firstn 19 frame
      = [0x33; Z.land (int_value cmd) 0xFF] ++ bs ++ repeat 0 (17 - List.length bs) /\
    nth 19 frame 0 = xor_all (firstn 19 frame).
Proof.
  intros Hc Hv Hlen.
  destruct (prepareSinglePacketData_ok cmd payload bs Hc Hv Hlen) as (Hrun & Hl & Hwf).
  remember ([0x33; Z.land (int_value cmd) 0xFF] ++ bs ++ repeat 0 (17 - List.length bs))
    as body eqn:Ebody.
  exists (body ++ [xor_all body]).
  assert (Hfirst : firstn 19 (body ++ [xor_all body]) = body).
  { rewrite <- Hl. apply firstn_length_app. }
  split; [exact Hrun|]. split; [rewrite length_app, Hl; reflexivity|].
  split; [|split].
  - apply Forall_app. split; [exact Hwf|]. constructor; [|constructor].
    apply xor_all_byte. exact Hwf.
  - exact Hfirst.
  - rewrite Hfirst. rewrite app_nth2 by lia. rewrite Hl. reflexivity.
Qed.

Lemma prepareSinglePacketData_frame_checksum_witness :
  exists frame,
    _prepareSinglePacketData (PyInt 0x105) (PyList [PyInt 7; PyBool true; PyInt 255]) = inr frame /\
    List.length frame = 20%nat /\
    wf_bytes frame /\
    firstn 19 frame
      = [0x33; Z.land (int_value (PyInt 0x105)) 0xFF] ++ [7; 1; 255] ++ repeat 0 (17 - 3) /\
    nth 19 frame 0 = xor_all (firstn 19 frame).
Proof.
  apply (prepareSinglePacketData_frame_checksum (PyInt 0x105)
           (PyList [PyInt 7; PyBool true; PyInt 255]) [7; 1; 255]).
  - reflexivity.
  - reflexivity.
  - simpl. lia.
Defined.

(** C6. A payload whose length exceeds 17 never yields a frame:
    [_prepareSinglePacketData] raises [ValueError], and for an integer
    command and a payload that is bytes or a list of integers the
    error is the one of the length test, 'Payload too long'. Nothing
    is truncated. *)
Theorem prepareSinglePacketData_too_long (cmd payload : pyval) (n : Z) :
  Py.len payload = inr n ->
  17 < n ->
  (exists msg, _prepareSinglePacketData cmd payload = inl (ValueError msg)) /\
  (isinstance_int cmd = true ->
   payload_type_ok payload = true ->
   _prepareSinglePacketData cmd payload = inl (ValueError "Payload too long")).
Proof.
  intros Hl Hn.
  assert (Hlong : (17 <? n) = true) by (apply Z.ltb_lt; exact Hn).
  unfold _prepareSinglePacketData, check_arguments, payload_type_ok.
  split.
  - destruct (isinstance_int cmd); simpl; [|eauto].
    destruct (negb (isinstance_bytes payload)
              && negb (isinstance_list payload && all_int payload)); simpl; [eauto|].
    rewrite Hl. simpl. rewrite Hlong. simpl. eauto.
  - intros -> Hp. simpl negb.
    apply orb_true_iff in Hp.
    replace (negb (isinstance_bytes payload)
             && negb (isinstance_list payload && all_int payload)) with false
      by (destruct Hp as [-> | ->]; simpl; auto using andb_false_r).
    rewrite Hl. simpl. rewrite Hlong. reflexivity.
Qed.

Lemma prepareSinglePacketData_too_long_witness :
  (exists msg,
     _prepareSinglePacketData (PyInt 5) (PyList (repeat (PyInt 1) 18))
     = inl (ValueError msg)) /\
  (isinstance_int (PyInt 5) = true ->
   payload_type_ok (PyList (repeat (PyInt 1) 18)) = true ->
   _prepareSinglePacketData (PyInt 5) (PyList (repeat (PyInt 1) 18))
   = inl (ValueError "Payload too long")).
Proof.
  apply (prepareSinglePacketData_too_long (PyInt 5) (PyList (repeat (PyInt 1) 18)) 18).
  - reflexivity.
  - lia.
Defined.

Lemma bytes_of_list_out_of_range (xs : list pyval) :
  forallb isinstance_int xs = true ->
  forallb (fun x => is_byte (int_value x)) xs = false ->
  bytes_of_list xs = inl (ValueError "bytes must be in range(0, 256)").
Proof.
  induction xs as [|x xs IH]; simpl; [discriminate|].
  intros Hi Hb. apply andb_true_iff in Hi as [Hx Hxs]. rewrite Hx.
  destruct (is_byte (int_value x)); simpl in *.
  - rewrite (IH Hxs Hb). reflexivity.
  - reflexivity.
Qed.

(** C10. The tests of [_prepareSinglePacketData] look at the types and
    the length only: a list of at most 17 integers passes them whatever
    the values. If all values lie in 0..255 a frame is returned; if
    one does not, the conversion [bytes(payload)] that follows the
    tests raises [ValueError], and so does the call. *)
Theorem prepareSinglePacketData_range_unchecked (cmd : pyval) (xs : list pyval) :
  isinstance_int cmd = true ->
  forallb isinstance_int xs = true ->
  (List.length xs <= 17)%nat ->
  check_arguments cmd (PyList xs) = inr tt /\
  (forallb (fun x => is_byte (int_value x)) xs = true ->
   exists frame, _prepareSinglePacketData cmd (PyList xs) = inr frame) /\
  (forallb (fun x => is_byte (int_value x)) xs = false ->
   Py.bytes (PyList xs) = inl (ValueError "bytes must be in range(0, 256)") /\
   _prepareSinglePacketData cmd (PyList xs)
   = inl (ValueError "bytes must be in range(0, 256)")).
Proof.
  intros Hc Hi Hlen.
  assert (Hchk : check_arguments cmd (PyList xs) = inr tt).
  { apply (check_arguments_ok cmd (PyList xs) (Z.of_nat (List.length xs))).
    - exact Hc.
    - unfold payload_type_ok. simpl. exact Hi.
    - reflexivity.
    - lia. }
  split; [exact Hchk|]. split.
  - intros Hb.
    assert (Hv : byte_values (PyList xs) = Some (map int_value xs)).
    { simpl.
      replace (forallb (fun x => isinstance_int x && is_byte (int_value x)) xs) with true;
        [reflexivity|].
      symmetry. rewrite forallb_forall in *. intros x Hx.
      rewrite (Hi x Hx), (Hb x Hx). reflexivity. }
    destruct (prepareSinglePacketData_ok cmd (PyList xs) _ Hc Hv) as (Hrun & _).
    + rewrite length_map. exact Hlen.
    + eexists. exact Hrun.
  - intros Hb.
    assert (Hbytes : Py.bytes (PyList xs) = inl (ValueError "bytes must be in range(0, 256)"))
      by (apply bytes_of_list_out_of_range; assumption).
    split; [exact Hbytes|].
    unfold _prepareSinglePacketData. rewrite Hchk. unfold Py.bind at 1.
    unfold assemble_frame. rewrite Hbytes. reflexivity.
Qed.

Lemma prepareSinglePacketData_range_unchecked_witness :
  check_arguments (PyInt 4) (PyList [PyInt 300]) = inr tt /\
  (forallb (fun x => is_byte (int_value x)) [PyInt 300] = true ->
   exists frame, _prepareSinglePacketData (PyInt 4) (PyList [PyInt 300]) = inr frame) /\
  (forallb (fun x => is_byte (int_value x)) [PyInt 300] = false ->
   Py.bytes (PyList [PyInt 300]) = inl (ValueError "bytes must be in range(0, 256)") /\
   _prepareSinglePacketData (PyInt 4) (PyList [PyInt 300])
   = inl (ValueError "bytes must be in range(0, 256)")).
Proof.
  apply (prepareSinglePacketData_range_unchecked (PyInt 4) [PyInt 300]).
  - reflexivity.
  - reflexivity.
  - simpl. lia.
Defined.

(** ** Brightness rescaling *)

(** The float computation agrees with the integer quotient on every
    level of the 0..255 scale; checked level by level. *)
Lemma brightness_percent_table :
  forallb (fun n => match brightness_percent (Z.of_nat n) with
                    | inr p => p =? Z.quot (Z.of_nat n * 100) 255
                    | inl _ => false
                    end) (seq 0 256) = true.
Proof. vm_compute. reflexivity. Qed.

Lemma brightness_percent_exact (level : Z) :
  0 <= level <= 255 ->
  brightness_percent level = inr (Z.quot (level * 100) 255).
Proof.
  intros H. pose proof brightness_percent_table as T.
  rewrite forallb_forall in T.
  specialize (T (Z.to_nat level)).
  rewrite Z2Nat.id in T by lia.
  assert (Hin : In (Z.to_nat level) (seq 0 256)) by (apply in_seq; lia).
  apply T in Hin.
  destruct (brightness_percent level) as [e|p]; [discriminate|].
  apply Z.eqb_eq in Hin. now subst.
Qed.

Lemma percent_bounds (level : Z) :
  0 <= level <= 255 -> 0 <= Z.quot (level * 100) 255 <= 100.
Proof.
  intros H. rewrite Z.quot_div_nonneg by lia. split.
  - apply Z.div_pos; lia.
  - apply Z.div_le_upper_bound; lia.
Qed.

Lemma percent_monotone (l1 l2 : Z) :
  0 <= l1 <= l2 -> Z.quot (l1 * 100) 255 <= Z.quot (l2 * 100) 255.
Proof.
  intros H. rewrite !Z.quot_div_nonneg by lia. apply Z.div_le_mono; lia.
Qed.

(** C7. On an entity with [_use_percent], a turn-on call with a
    brightness level in 0..255 appends one Brightness frame whose
    payload byte is the truncated quotient of [level * 100] by 255:
    the value that the float expression [int(level * 100 / 255)]
    computes. Level 255 gives 100, level 0 gives 0, and a higher
    level never gives a lower value. *)
Theorem brightness_percent_scaling
    (self : entity) (w : world) (kw : kwargs) (commands : list (list Z)) (level : Z) :
  _use_percent self = true ->
  ATTR_BRIGHTNESS kw = Some level ->
  0 <= level <= 255 ->
  brightness_percent level = inr (Z.quot (level * 100) 255) /\
  (exists frame s',
     turn_on_brightness kw commands (self, w) = (inr (commands ++ [frame]), s') /\
     _prepareSinglePacketData (PyInt LedCommand.BRIGHTNESS)
       (PyList [PyInt (Z.quot (level * 100) 255)]) = inr frame /\
     nth 1 frame 0 = LedCommand.BRIGHTNESS /\
     nth 2 frame 0 = Z.quot (level * 100) 255) /\
  brightness_percent 255 = inr 100 /\
  brightness_percent 0 = inr 0 /\
  (forall level', level <= level' <= 255 ->
     exists p p', brightness_percent level = inr p /\
                  brightness_percent level' = inr p' /\ p <= p').
Proof.
  intros Hp Hb Hr.
  pose proof (brightness_percent_exact level Hr) as Hexact.
  pose proof (percent_bounds level Hr) as Hbound.
  split; [exact Hexact|]. split; [|split; [|split]].
  - assert (Hv : byte_values (PyList [PyInt (Z.quot (level * 100) 255)])
                 = Some [Z.quot (level * 100) 255]).
    { simpl. replace (is_byte (Z.quot (level * 100) 255)) with true; [reflexivity|].
      symmetry. apply is_byte_iff. lia. }
    destruct (prepareSinglePacketData_ok (PyInt LedCommand.BRIGHTNESS) _ _ eq_refl Hv)
      as (Hrun & _); [simpl; lia|].
    eexists. eexists. split; [|split; [exact Hrun|split; reflexivity]].
    unfold turn_on_brightness. rewrite Hb.
    unfold mbind, get_self, lift, set_self, mret. cbn [fst snd].
    rewrite Hp, Hexact, Hrun. reflexivity.
  - exact (brightness_percent_exact 255 ltac:(lia)).
  - exact (brightness_percent_exact 0 ltac:(lia)).
  - intros level' H'. exists (Z.quot (level * 100) 255), (Z.quot (level' * 100) 255).
    split; [exact Hexact|]. split; [apply brightness_percent_exact; lia|].
    apply percent_monotone. lia.
Qed.

(** ** Frames of integer payloads *)

Lemma byte_values_ints (zs : list Z) :
  wf_bytes zs -> byte_values (PyList (map PyInt zs)) = Some zs.
Proof.
  intros H. simpl.
  assert (Hall : forallb (fun x => isinstance_int x && is_byte (int_value x)) (map PyInt zs) = true).
  { induction H as [|z zs Hz _ IH]; simpl; [reflexivity|].
    rewrite IH, (proj2 (is_byte_iff z) Hz). reflexivity. }
  rewrite Hall, map_map. simpl. now rewrite map_id.
Qed.

Lemma prepareSinglePacketData_ints (cmd : Z) (zs : list Z) :
  wf_bytes zs ->
  (List.length zs <= 17)%nat ->
  _prepareSinglePacketData (PyInt cmd) (PyList (map PyInt zs))
  = inr (([0x33; Z.land cmd 0xFF] ++ zs ++ repeat 0 (17 - List.length zs))
         ++ [xor_all ([0x33; Z.land cmd 0xFF] ++ zs ++ repeat 0 (17 - List.length zs))]).
Proof.
  intros Hwf Hlen.
  destruct (prepareSinglePacketData_ok (PyInt cmd) _ zs eq_refl (byte_values_ints zs Hwf) Hlen)
    as (Hrun & _).
  exact Hrun.
Qed.

(** C8. On a segmented model the colour block of a turn-on call appends
    exactly one frame: marker 0x33, code COLOR (0x05), then SEGMENTS
    (0x15), 0x01, red, green, blue, five zero bytes, 0xFF, 0x7F, five
    bytes of zero padding and the XOR checksum. Only the three colour
    bytes depend on the call. For (10, 20, 30) the frame ends with
    checksum 162. *)
Theorem segmented_color_frame
    (self : entity) (w : world) (kw : kwargs) (commands : list (list Z)) (red green blue : Z) :
  _is_segmented self = true ->
  ATTR_RGB_COLOR kw = Some (red, green, blue) ->
  0 <= red <= 255 -> 0 <= green <= 255 -> 0 <= blue <= 255 ->
  let body := [0x33; LedCommand.COLOR; LedMode.SEGMENTS; 0x01; red; green; blue;
               0; 0; 0; 0; 0; 0xFF; 0x7F; 0; 0; 0; 0; 0] in
  turn_on_color kw commands (self, w)
  = (inr (commands ++ [body ++ [xor_all body]]),
     (assign_rgb_color (Some (red, green, blue)) self, w)) /\
  _prepareSinglePacketData (PyInt LedCommand.COLOR)
    (PyList [PyInt LedMode.SEGMENTS; PyInt 0x01; PyInt red; PyInt green; PyInt blue;
             PyInt 0; PyInt 0; PyInt 0; PyInt 0; PyInt 0; PyInt 0xFF; PyInt 0x7F])
  = inr (body ++ [xor_all body]) /\
  (red = 10 -> green = 20 -> blue = 30 ->
   body ++ [xor_all body]
   = [0x33; 0x05; 0x15; 0x01; 10; 20; 30; 0; 0; 0; 0; 0; 0xFF; 0x7F; 0; 0; 0; 0; 0; 162]).
Proof.
  intros Hseg Hc Hr Hg Hb body.
  assert (Hrun : _prepareSinglePacketData (PyInt LedCommand.COLOR)
            (PyList [PyInt LedMode.SEGMENTS; PyInt 0x01; PyInt red; PyInt green; PyInt blue;
                     PyInt 0; PyInt 0; PyInt 0; PyInt 0; PyInt 0; PyInt 0xFF; PyInt 0x7F])
          = inr (body ++ [xor_all body])).
  { apply (prepareSinglePacketData_ints LedCommand.COLOR
             [LedMode.SEGMENTS; 0x01; red; green; blue; 0; 0; 0; 0; 0; 0xFF; 0x7F]).
    - unfold wf_bytes, LedMode.SEGMENTS. repeat constructor; lia.
    - simpl. lia. }
  split; [|split].
  - unfold turn_on_color. rewrite Hc.
    unfold mbind, get_self, lift, set_self, mret. cbn [fst snd].
    rewrite Hseg, Hrun. reflexivity.
  - exact Hrun.
  - intros -> -> ->. reflexivity.
Qed.

Lemma segmented_color_frame_witness :
  let body := [0x33; LedCommand.COLOR; LedMode.SEGMENTS; 0x01; 10; 20; 30;
               0; 0; 0; 0; 0; 0xFF; 0x7F; 0; 0; 0; 0; 0] in
  turn_on_color (mkKwargs None (Some (10, 20, 30)) None) [] (sample_h617a, world0)
  = (inr ([] ++ [body ++ [xor_all body]]),
     (assign_rgb_color (Some (10, 20, 30)) sample_h617a, world0)) /\
  _prepareSinglePacketData (PyInt LedCommand.COLOR)
    (PyList [PyInt LedMode.SEGMENTS; PyInt 0x01; PyInt 10; PyInt 20; PyInt 30;
             PyInt 0; PyInt 0; PyInt 0; PyInt 0; PyInt 0; PyInt 0xFF; PyInt 0x7F])
  = inr (body ++ [xor_all body]) /\
  (10 = 10 -> 20 = 20 -> 30 = 30 ->
   body ++ [xor_all body]
   = [0x33; 0x05; 0x15; 0x01; 10; 20; 30; 0; 0; 0; 0; 0; 0xFF; 0x7F; 0; 0; 0; 0; 0; 162]).
Proof.
  apply (segmented_color_frame sample_h617a world0
           (mkKwargs None (Some (10, 20, 30)) None) [] 10 20 30).
  - reflexivity.
  - reflexivity.
  - lia.
  - lia.
  - lia.
Defined.

Lemma brightness_percent_scaling_witness :
  brightness_percent 128 = inr (Z.quot (128 * 100) 255) /\
  (exists frame s',
     turn_on_brightness (mkKwargs (Some 128) None None) [] (sample_h617a, world0)
     = (inr ([] ++ [frame]), s') /\
     _prepareSinglePacketData (PyInt LedCommand.BRIGHTNESS)
       (PyList [PyInt (Z.quot (128 * 100) 255)]) = inr frame /\
     nth 1 frame 0 = LedCommand.BRIGHTNESS /\
     nth 2 frame 0 = Z.quot (128 * 100) 255) /\
  brightness_percent 255 = inr 100 /\
  brightness_percent 0 = inr 0 /\
  (forall level', 128 <= level' <= 255 ->
     exists p p', brightness_percent 128 = inr p /\
                  brightness_percent level' = inr p' /\ p <= p').
Proof.
  apply (brightness_percent_scaling sample_h617a world0 (mkKwargs (Some 128) None None) [] 128).
  - reflexivity.
  - reflexivity.
  - lia.
Defined.

(** ** The transport: connecting and writing *)

Section Transport.

Variable E : env.

Ltac step_conn :=
  unfold mbind, get_self, lift, set_self, mret, mraise,
         try_except_Exception, await_establish_connection in *;
  cbn [fst snd conn_calls write_calls written] in *.

(** What a run of the connect loop can change, and where a returned
    link comes from. *)
Lemma connect_loop_spec (n : nat) :
  forall (s s' : state) (r : result (option link)),
    connect_loop E n s = (r, s') ->
    fst s' = fst s /\
    written (snd s') = written (snd s) /\
    write_calls (snd s') = write_calls (snd s) /\
    (conn_calls (snd s) <= conn_calls (snd s') <= conn_calls (snd s) + n)%nat /\
    (forall l, r = inr (Some l) ->
       exists k, (conn_calls (snd s) <= k < conn_calls (snd s'))%nat /\
                 establish_connection E k = inr l).
Proof.
  induction n as [|n IH]; intros s s' r H.
  - simpl in H. step_conn. injection H as <- <-.
    repeat split; try lia. discriminate.
  - simpl in H. step_conn.
    destruct (establish_connection E (conn_calls (snd s))) as [e|c] eqn:Hc.
    + destruct (is_Exception e).
      * apply IH in H. cbn [fst snd conn_calls write_calls written] in H.
        destruct H as (He & Hw & Hwc & Hcc & Hl).
        repeat split; try assumption; try lia.
        intros l Hr. destruct (Hl l Hr) as (k & Hk & Hk'). exists k. split; [lia|exact Hk'].
      * injection H as <- <-. cbn. repeat split; try lia. discriminate.
    + injection H as <- <-. cbn. repeat split; try lia.
      intros l [= <-]. exists (conn_calls (snd s)). split; [lia|exact Hc].
Qed.

(** The loop gives up after [n] failures that [except Exception]
    catches, and then returns [None]. *)
Lemma connect_loop_exhausted (n : nat) :
  forall s : state,
    (forall i, (i < n)%nat ->
       exists e, establish_connection E (conn_calls (snd s) + i) = inl e /\
                 is_Exception e = true) ->
    connect_loop E n s
    = (inr None, (fst s, {| conn_calls := conn_calls (snd s) + n;
                            write_calls := write_calls (snd s);
                            written := written (snd s) |})).
Proof.
  induction n as [|n IH]; intros [self w] H; simpl.
  - unfold mret. rewrite Nat.add_0_r. destruct w; reflexivity.
  - step_conn.
    destruct (H 0%nat ltac:(lia)) as (e & He & Hex). rewrite Nat.add_0_r in He.
    rewrite He, Hex. rewrite IH.
    + cbn. do 3 f_equal. lia.
    + cbn. intros i Hi. destruct (H (S i) ltac:(lia)) as (e' & He' & Hex').
      exists e'. split; [|exact Hex']. rewrite <- He'. f_equal. lia.
Qed.

(** After [k] caught failures, a success within the bound returns its
    link; [k + 1] connections were attempted. *)
Lemma connect_loop_success (n k : nat) (l : link) :
  forall s : state,
    (k < n)%nat ->
    (forall i, (i < k)%nat ->
       exists e, establish_connection E (conn_calls (snd s) + i) = inl e /\
                 is_Exception e = true) ->
    establish_connection E (conn_calls (snd s) + k) = inr l ->
    connect_loop E n s
    = (inr (Some l), (fst s, {| conn_calls := conn_calls (snd s) + S k;
                                write_calls := write_calls (snd s);
                                written := written (snd s) |})).
Proof.
  revert k. induction n as [|n IH]; intros k [self w] Hk Hfail Hok; [lia|].
  simpl. step_conn. destruct k as [|k].
  - rewrite Nat.add_0_r in Hok. rewrite Hok. do 3 f_equal. lia.
  - destruct (Hfail 0%nat ltac:(lia)) as (e & He & Hex). rewrite Nat.add_0_r in He.
    rewrite He, Hex. rewrite (IH k).
    + cbn. do 3 f_equal. lia.
    + lia.
    + cbn. intros i Hi. destruct (Hfail (S i) ltac:(lia)) as (e' & He' & Hex').
      exists e'. split; [|exact Hex']. rewrite <- He'. f_equal. lia.
    + cbn. rewrite <- Hok. f_equal. lia.
Qed.

(** Every outcome of the loop, with the calls that led to it. *)
Lemma connect_loop_outcome (n : nat) :
  forall (s s' : state) (r : result (option link)),
    connect_loop E n s = (r, s') ->
    exists k,
      (forall i, (i < k)%nat ->
         exists e, establish_connection E (conn_calls (snd s) + i) = inl e /\
                   is_Exception e = true) /\
      match r with
      | inr None => k = n /\ conn_calls (snd s') = (conn_calls (snd s) + n)%nat
      | inr (Some l) =>
          (k < n)%nat /\ establish_connection E (conn_calls (snd s) + k) = inr l /\
          conn_calls (snd s') = (conn_calls (snd s) + S k)%nat
      | inl e =>
          (k < n)%nat /\ establish_connection E (conn_calls (snd s) + k) = inl e /\
          is_Exception e = false /\
          conn_calls (snd s') = (conn_calls (snd s) + S k)%nat
      end.
Proof.
  induction n as [|n IH]; intros s s' r H.
  - simpl in H. unfold mret in H. injection H as <- <-. exists 0%nat.
    split; [intros i Hi; lia|]. split; [reflexivity|lia].
  - simpl in H.
    unfold mbind, try_except_Exception, await_establish_connection, mret in H.
    cbn [fst snd] in H.
    destruct (establish_connection E (conn_calls (snd s))) as [e|c] eqn:Hc.
    + destruct (is_Exception e) eqn:Hex.
      * apply IH in H. cbn [fst snd conn_calls] in H.
        destruct H as (k & Hfail & Hr). exists (S k). split.
        -- intros [|i] Hi.
           ++ exists e. rewrite Nat.add_0_r. auto.
           ++ destruct (Hfail i ltac:(lia)) as (e' & He' & Hex').
              exists e'. split; [|exact Hex']. rewrite <- He'. f_equal. lia.
        -- destruct r as [e'|[l|]].
           ++ destruct Hr as (Hk & He' & Hex' & Hcc). repeat split; try lia; try assumption.
              rewrite <- He'. f_equal. lia.
           ++ destruct Hr as (Hk & He' & Hcc). repeat split; try lia.
              rewrite <- He'. f_equal. lia.
           ++ destruct Hr as (Hk & Hcc). split; lia.
      * injection H as <- <-. exists 0%nat. split; [intros i Hi; lia|].
        cbn [fst snd conn_calls]. rewrite Nat.add_0_r. repeat split; try lia; assumption.
    + injection H as <- <-. exists 0%nat. split; [intros i Hi; lia|].
      cbn [fst snd conn_calls]. rewrite Nat.add_0_r. repeat split; try lia; assumption.
Qed.

Lemma await_write_spec (client : option link) (command : list Z) (s s' : state) (r : result unit) :
  await_write_gatt_char E client command s = (r, s') ->
  fst s' = fst s /\
  conn_calls (snd s') = conn_calls (snd s) /\
  (r = inr tt ->
   exists l, client = Some l /\ written (snd s') = written (snd s) ++ [(l, command)]).
Proof.
  unfold await_write_gatt_char. destruct client as [c|].
  - intros H. injection H as <- <-. cbn. repeat split.
    intros Hr. exists c. rewrite Hr. split; reflexivity.
  - unfold mraise. intros H. injection H as <- <-. repeat split. discriminate.
Qed.

(** Sending never assigns an attribute of the entity. *)
Lemma send_commands_entity (commands : list (list Z)) :
  forall s, fst (snd (send_commands E commands s)) = fst s.
Proof.
  induction commands as [|c rest IH]; intros s; simpl; [reflexivity|].
  unfold mbind, _connectBluetooth.
  destruct (connect_loop E 3 s) as [r s1] eqn:Hc.
  apply connect_loop_spec in Hc. destruct Hc as (He & _).
  destruct r as [e|client]; [exact He|].
  destruct (await_write_gatt_char E client c s1) as [r2 s2] eqn:Hw.
  apply await_write_spec in Hw. destruct Hw as (He2 & _).
  destruct r2 as [e|[]]; cbn.
  - congruence.
  - rewrite IH. congruence.
Qed.

(** A sending loop that completes wrote every command, in order, each
    over a link that a connection made during the loop returned. *)
Lemma send_commands_spec (commands : list (list Z)) :
  forall s s',
    send_commands E commands s = (inr tt, s') ->
    exists links,
      List.length links = List.length commands /\
      written (snd s') = written (snd s) ++ combine links commands /\
      (conn_calls (snd s) <= conn_calls (snd s'))%nat /\
      Forall (fun l => exists k, (conn_calls (snd s) <= k < conn_calls (snd s'))%nat /\
                                 establish_connection E k = inr l) links.
Proof.
  induction commands as [|c rest IH]; intros s s' H; simpl in H.
  - unfold mret in H. injection H as <-. exists []. cbn.
    rewrite app_nil_r. repeat split; auto.
  - unfold mbind, _connectBluetooth in H.
    destruct (connect_loop E 3 s) as [r s1] eqn:Hc.
    apply connect_loop_spec in Hc. destruct Hc as (_ & Hw1 & _ & Hcc1 & Hl1).
    destruct r as [e|client]; [discriminate|].
    destruct (await_write_gatt_char E client c s1) as [r2 s2] eqn:Hw.
    apply await_write_spec in Hw. destruct Hw as (_ & Hcc2 & Hw2).
    destruct r2 as [e|[]]; [discriminate|].
    destruct (Hw2 eq_refl) as (l & -> & Hw2').
    apply IH in H. destruct H as (links & Hlen & Hw3 & Hcc3 & Hall).
    exists (l :: links). cbn. repeat split.
    + now rewrite Hlen.
    + rewrite Hw3, Hw2', Hw1, <- app_assoc. reflexivity.
    + lia.
    + constructor.
      * destruct (Hl1 l eq_refl) as (k & Hk & Hk'). exists k. split; [lia|exact Hk'].
      * eapply Forall_impl; [|exact Hall]. cbn.
        intros l' (k & Hk & Hk'). exists k. split; [lia|exact Hk'].
Qed.

(** A sending loop that completes ran the connect loop once for each
    command, one after the other, and wrote each command over the
    link that its own run returned. *)
Lemma send_commands_links (commands : list (list Z)) :
  forall s s',
    send_commands E commands s = (inr tt, s') ->
    exists links,
      List.length links = List.length commands /\
      written (snd s') = written (snd s) ++ combine links commands /\
      linked_per_frame E (conn_calls (snd s)) links (conn_calls (snd s')).
Proof.
  induction commands as [|c rest IH]; intros s s' H; simpl in H.
  - unfold mret in H. injection H as <-. exists []. cbn.
    rewrite app_nil_r. repeat split; auto.
  - unfold mbind, _connectBluetooth in H.
    destruct (connect_loop E 3 s) as [r s1] eqn:Hc.
    pose proof (connect_loop_outcome 3 s s1 r Hc) as (k & Hfail & Hr).
    apply connect_loop_spec in Hc. destruct Hc as (_ & Hw1 & _).
    destruct r as [e|client]; [discriminate|].
    destruct (await_write_gatt_char E client c s1) as [r2 s2] eqn:Hw.
    apply await_write_spec in Hw. destruct Hw as (_ & Hcc2 & Hw2).
    destruct r2 as [e|[]]; [discriminate|].
    destruct (Hw2 eq_refl) as (l & -> & Hw2').
    destruct Hr as (Hk & Hok & Hcc1).
    apply IH in H. destruct H as (links & Hlen & Hw3 & Hlinks).
    exists (l :: links). cbn [List.length combine linked_per_frame]. repeat split.
    + now rewrite Hlen.
    + rewrite Hw3, Hw2', Hw1, <- app_assoc. reflexivity.
    + exists k. repeat split; try assumption.
      rewrite Hcc2, Hcc1 in Hlinks. exact Hlinks.
Qed.

End Transport.

(** ** The command builder *)

Ltac step_call :=
  unfold mbind, get_self, lift, set_self, mret, mraise in *;
  cbn [fst snd] in *.

Ltac case_codec f :=
  match goal with
  | |- context [_prepareSinglePacketData ?c ?p] =>
      let e := fresh "e" in
      destruct (_prepareSinglePacketData c p) as [e|f]
  end.

Lemma power_on_frame :
  _prepareSinglePacketData (PyInt LedCommand.POWER) (PyList [PyInt 0x1])
  = inr [0x33; 0x01; 0x01; 0; 0; 0; 0; 0; 0; 0; 0; 0; 0; 0; 0; 0; 0; 0; 0; 0x33].
Proof. reflexivity. Qed.

Lemma power_off_frame :
  _prepareSinglePacketData (PyInt LedCommand.POWER) (PyList [PyInt 0x0])
  = inr [0x33; 0x01; 0x00; 0; 0; 0; 0; 0; 0; 0; 0; 0; 0; 0; 0; 0; 0; 0; 0; 0x32].
Proof. reflexivity. Qed.

(** The brightness block: what it appends and what it assigns. *)
Lemma turn_on_brightness_spec (kw : kwargs) (commands : list (list Z)) (s : state) :
  match ATTR_BRIGHTNESS kw with
  | None => turn_on_brightness kw commands s = (inr commands, s)
  | Some b =>
      match (level <- brightness_level (fst s) b ;;
             _prepareSinglePacketData (PyInt LedCommand.BRIGHTNESS) (PyList [PyInt level]))%result with
      | inr frame =>
          turn_on_brightness kw commands s
          = (inr (commands ++ [frame]), (assign_brightness (Some b) (fst s), snd s))
      | inl e => turn_on_brightness kw commands s = (inl e, s)
      end
  end.
Proof.
  unfold turn_on_brightness, brightness_level.
  destruct (ATTR_BRIGHTNESS kw) as [b|]; [|reflexivity].
  step_call. destruct s as [self w]. cbn [fst snd].
  destruct (_use_percent self).
  - destruct (brightness_percent b) as [e|p]; unfold Py.bind; [reflexivity|].
    case_codec f; reflexivity.
  - unfold Py.bind. case_codec f; reflexivity.
Qed.

(** The colour block: what it appends and what it assigns. *)
Lemma turn_on_color_spec (kw : kwargs) (commands : list (list Z)) (s : state) :
  match ATTR_RGB_COLOR kw with
  | None => turn_on_color kw commands s = (inr commands, s)
  | Some (r, g, b) =>
      match _prepareSinglePacketData (PyInt LedCommand.COLOR) (color_payload (fst s) r g b) with
      | inr frame =>
          turn_on_color kw commands s
          = (inr (commands ++ [frame]), (assign_rgb_color (Some (r, g, b)) (fst s), snd s))
      | inl e => turn_on_color kw commands s = (inl e, s)
      end
  end.
Proof.
  unfold turn_on_color, color_payload.
  destruct (ATTR_RGB_COLOR kw) as [[[r g] b]|]; [|reflexivity].
  step_call. destruct s as [self w]. cbn [fst snd].
  destruct (_is_segmented self).
  - case_codec f; reflexivity.
  - case_codec f; reflexivity.
Qed.

(** The effect block assigns nothing and touches no link; it appends
    the packets that the effect resolves to, or nothing when there is
    no effect or no index path in its name. *)
Lemma turn_on_effect_spec (E : env) (kw : kwargs) (commands : list (list Z)) (s : state) :
  snd (turn_on_effect E kw commands s) = s /\
  forall commands',
    fst (turn_on_effect E kw commands s) = inr commands' ->
    exists eff,
      commands' = commands ++ eff /\
      match ATTR_EFFECT kw with
      | None => eff = []
      | Some effect =>
          (EffectParse.search effect = None /\ eff = []) \/
          effect_resolves E (_model (fst s)) effect eff
      end.
Proof.
  unfold turn_on_effect.
  destruct (ATTR_EFFECT kw) as [effect|].
  2:{ split; [reflexivity|]. intros c' [= <-]. exists []. rewrite app_nil_r. auto. }
  destruct (String.eqb effect "") eqn:Hempty.
  { split; [reflexivity|]. intros c' [= <-]. exists []. rewrite app_nil_r.
    split; [reflexivity|]. left. apply String.eqb_eq in Hempty. subst effect. auto. }
  destruct (EffectParse.search effect) as [[[[g1 g2] g3] g4]|] eqn:Hs.
  2:{ split; [reflexivity|]. intros c' [= <-]. exists []. rewrite app_nil_r. auto. }
  step_call.
  destruct (EffectParse.int_of_digits g1) as [e|i0] eqn:H0; [split; [reflexivity|discriminate]|].
  destruct (EffectParse.int_of_digits g2) as [e|i1] eqn:H1; [split; [reflexivity|discriminate]|].
  destruct (EffectParse.int_of_digits g3) as [e|i2] eqn:H2; [split; [reflexivity|discriminate]|].
  destruct (EffectParse.int_of_digits g4) as [e|i3] eqn:H3; [split; [reflexivity|discriminate]|].
  destruct (read_catalog E (_model (fst s))) as [e|json_data] eqn:Hcat;
    [split; [reflexivity|discriminate]|].
  destruct (lookup_special_effect json_data _) as [e|specialEffect] eqn:Hlook;
    [split; [reflexivity|discriminate]|].
  destruct (getitem_str specialEffect "scenceParam") as [e|param] eqn:Hparam; cbn;
    [split; [reflexivity|discriminate]|].
  destruct (b64decode E param) as [e|blob] eqn:Hblob; cbn; [split; [reflexivity|discriminate]|].
  destruct (prepareMultiplePacketsData E 163 [2] blob) as [e|packets] eqn:Hp; cbn;
    [split; [reflexivity|discriminate]|].
  split; [reflexivity|]. intros c' [= <-]. exists packets.
  split; [reflexivity|]. right.
  exists g1, g2, g3, g4, i0, i1, i2, i3, json_data, specialEffect, param, blob. auto 15.
Qed.

Lemma search_nonempty (effect : string) (g : string * string * string * string) :
  EffectParse.search effect = Some g -> String.eqb effect "" = false.
Proof. destruct effect; [discriminate | reflexivity]. Qed.

(** An effect that resolves has its packets appended. *)
Lemma turn_on_effect_resolves (E : env) (kw : kwargs) (commands : list (list Z)) (s : state)
    (effect : string) (packets : list (list Z)) :
  ATTR_EFFECT kw = Some effect ->
  effect_resolves E (_model (fst s)) effect packets ->
  turn_on_effect E kw commands s = (inr (commands ++ packets), s).
Proof.
  intros He (g1 & g2 & g3 & g4 & i0 & i1 & i2 & i3 & json_data & sp & param & blob
             & Hs & H0 & H1 & H2 & H3 & Hcat & Hlook & Hparam & Hblob & Hp).
  unfold turn_on_effect. rewrite He, (search_nonempty _ _ Hs), Hs.
  step_call. rewrite H0, H1, H2, H3, Hcat, Hlook, Hparam.
  cbn [Py.bind]. rewrite Hblob. cbn [Py.bind]. rewrite Hp. reflexivity.
Qed.

Lemma turn_on_brightness_keeps (kw : kwargs) (commands : list (list Z)) (s : state) :
  snd (snd (turn_on_brightness kw commands s)) = snd s /\
  _state (fst (snd (turn_on_brightness kw commands s))) = _state (fst s) /\
  _model (fst (snd (turn_on_brightness kw commands s))) = _model (fst s).
Proof.
  pose proof (turn_on_brightness_spec kw commands s) as H.
  destruct (ATTR_BRIGHTNESS kw) as [b|]; [|rewrite H; repeat split].
  destruct (Py.bind _ _) as [e|f]; rewrite H; repeat split.
Qed.

Lemma turn_on_color_keeps (kw : kwargs) (commands : list (list Z)) (s : state) :
  snd (snd (turn_on_color kw commands s)) = snd s /\
  _state (fst (snd (turn_on_color kw commands s))) = _state (fst s) /\
  _model (fst (snd (turn_on_color kw commands s))) = _model (fst s).
Proof.
  pose proof (turn_on_color_spec kw commands s) as H.
  destruct (ATTR_RGB_COLOR kw) as [[[r g] b]|]; [|rewrite H; repeat split].
  destruct (_prepareSinglePacketData _ _) as [e|f]; rewrite H; repeat split.
Qed.

(** Building the commands attempts no connection and no write, and
    the power frame with the assignment of [_state] always go
    through. *)
Lemma build_commands_world (E : env) (kw : kwargs) (s : state) :
  snd (snd (build_commands E kw s)) = snd s /\
  _state (fst (snd (build_commands E kw s))) = Some true.
Proof.
  unfold build_commands. rewrite power_on_frame. step_call.
  set (s0 := (assign_state (Some true) (fst s), snd s)).
  set (c0 := [[51; 1; 1; 0; 0; 0; 0; 0; 0; 0; 0; 0; 0; 0; 0; 0; 0; 0; 0; 51]]).
  pose proof (turn_on_brightness_keeps kw c0 s0) as (Hb1 & Hb2 & _).
  change (snd s0) with (snd s) in Hb1.
  change (_state (fst s0)) with (Some true) in Hb2.
  destruct (turn_on_brightness kw c0 s0) as [[e|c1] s1]; cbn [fst snd] in *;
    [split; assumption|].
  pose proof (turn_on_color_keeps kw c1 s1) as (Hc1 & Hc2 & _).
  destruct (turn_on_color kw c1 s1) as [[e|c2] s2]; cbn [fst snd] in *;
    [split; congruence|].
  rewrite (proj1 (turn_on_effect_spec E kw c2 s2)). split; congruence.
Qed.

(** ** Valid levels: the brightness and colour blocks go through *)

Lemma turn_on_brightness_valid (kw : kwargs) (commands : list (list Z)) (s : state) :
  match ATTR_BRIGHTNESS kw with Some b => 0 <= b <= 255 | None => True end ->
  exists commands',
    turn_on_brightness kw commands s
    = (inr commands',
       (match ATTR_BRIGHTNESS kw with
        | Some b => assign_brightness (Some b) (fst s)
        | None => fst s
        end, snd s)).
Proof.
  intros Hv. pose proof (turn_on_brightness_spec kw commands s) as Hs.
  destruct (ATTR_BRIGHTNESS kw) as [b|].
  - assert (Hl : exists level, brightness_level (fst s) b = inr level /\ 0 <= level <= 255).
    { unfold brightness_level. destruct (_use_percent (fst s)).
      - exists (Z.quot (b * 100) 255). split; [now apply brightness_percent_exact|].
        pose proof (percent_bounds b Hv). lia.
      - exists b. split; [reflexivity|exact Hv]. }
    destruct Hl as (level & Hl & Hr). rewrite Hl in Hs. unfold Py.bind in Hs.
    assert (Hf : exists frame,
               _prepareSinglePacketData (PyInt LedCommand.BRIGHTNESS) (PyList [PyInt level])
               = inr frame).
    { eexists. apply (prepareSinglePacketData_ints LedCommand.BRIGHTNESS [level]).
      - repeat constructor; lia.
      - simpl. lia. }
    destruct Hf as (frame & Hf). rewrite Hf in Hs. eexists. exact Hs.
  - exists commands. destruct s. exact Hs.
Qed.

Lemma turn_on_color_valid (kw : kwargs) (commands : list (list Z)) (s : state) :
  match ATTR_RGB_COLOR kw with
  | Some (r, g, b) => 0 <= r <= 255 /\ 0 <= g <= 255 /\ 0 <= b <= 255
  | None => True
  end ->
  exists commands',
    turn_on_color kw commands s
    = (inr commands',
       (match ATTR_RGB_COLOR kw with
        | Some c => assign_rgb_color (Some c) (fst s)
        | None => fst s
        end, snd s)).
Proof.
  intros Hv. pose proof (turn_on_color_spec kw commands s) as Hs.
  destruct (ATTR_RGB_COLOR kw) as [[[r g] b]|].
  - destruct Hv as (Hr & Hg & Hb). unfold color_payload in Hs.
    destruct (_is_segmented (fst s)).
    + assert (Hf : exists frame,
                 _prepareSinglePacketData (PyInt LedCommand.COLOR)
                   (PyList [PyInt LedMode.SEGMENTS; PyInt 0x01; PyInt r; PyInt g; PyInt b;
                            PyInt 0x00; PyInt 0x00; PyInt 0x00; PyInt 0x00; PyInt 0x00;
                            PyInt 0xFF; PyInt 0x7F])
                 = inr frame).
      { eexists. apply (prepareSinglePacketData_ints LedCommand.COLOR
                          [LedMode.SEGMENTS; 0x01; r; g; b; 0; 0; 0; 0; 0; 0xFF; 0x7F]).
        - unfold LedMode.SEGMENTS. repeat constructor; lia.
        - simpl. lia. }
      destruct Hf as (frame & Hf). rewrite Hf in Hs. eexists. exact Hs.
    + assert (Hf : exists frame,
                 _prepareSinglePacketData (PyInt LedCommand.COLOR)
                   (PyList [PyInt LedMode.MANUAL; PyInt r; PyInt g; PyInt b])
                 = inr frame).
      { eexists. apply (prepareSinglePacketData_ints LedCommand.COLOR [LedMode.MANUAL; r; g; b]).
        - unfold LedMode.MANUAL. repeat constructor; lia.
        - simpl. lia. }
      destruct Hf as (frame & Hf). rewrite Hf in Hs. eexists. exact Hs.
  - exists commands. destruct s. exact Hs.
Qed.

(** With valid levels the builder reaches the effect block, with all
    assignments made and the radio side untouched. *)
Lemma build_commands_valid (E : env) (kw : kwargs) (s : state) :
  valid_levels kw ->
  exists commands,
    build_commands E kw s = turn_on_effect E kw commands (recorded kw (fst s), snd s).
Proof.
  intros (Hvb & Hvc). unfold build_commands. rewrite power_on_frame. step_call.
  set (s0 := (assign_state (Some true) (fst s), snd s)).
  set (c0 := [[51; 1; 1; 0; 0; 0; 0; 0; 0; 0; 0; 0; 0; 0; 0; 0; 0; 0; 0; 51]]).
  destruct (turn_on_brightness_valid kw c0 s0 Hvb) as (c1 & ->).
  match goal with
  | |- context [turn_on_color kw c1 ?s1] =>
      destruct (turn_on_color_valid kw c1 s1 Hvc) as (c2 & ->)
  end.
  exists c2. reflexivity.
Qed.

Lemma skipn_length_app {A : Type} (l r : list A) :
  skipn (List.length l) (l ++ r) = r.
Proof. induction l as [|a l IH]; simpl; [reflexivity | exact IH]. Qed.

Lemma map_snd_combine {A B : Type} (l : list A) :
  forall l' : list B, List.length l = List.length l' -> map snd (combine l l') = l'.
Proof.
  induction l as [|a l IH]; intros [|b l'] H; simpl in *; try discriminate; [reflexivity|].
  f_equal. apply IH. lia.
Qed.

(** The commands of a turn-on call, block by block. *)
Lemma build_commands_frames (E : env) (kw : kwargs) (s s1 : state) (commands : list (list Z)) :
  build_commands E kw s = (inr commands, s1) ->
  exists power bri col eff,
    commands = [power] ++ bri ++ col ++ eff /\
    _prepareSinglePacketData (PyInt LedCommand.POWER) (PyList [PyInt 0x1]) = inr power /\
    match ATTR_BRIGHTNESS kw with
    | None => bri = []
    | Some b =>
        exists level frame,
          brightness_level (fst s) b = inr level /\
          _prepareSinglePacketData (PyInt LedCommand.BRIGHTNESS) (PyList [PyInt level])
          = inr frame /\
          bri = [frame]
    end /\
    match ATTR_RGB_COLOR kw with
    | None => col = []
    | Some (r, g, b) =>
        exists frame,
          _prepareSinglePacketData (PyInt LedCommand.COLOR) (color_payload (fst s) r g b)
          = inr frame /\
          col = [frame]
    end /\
    match ATTR_EFFECT kw with
    | None => eff = []
    | Some effect =>
        (EffectParse.search effect = None /\ eff = []) \/
        effect_resolves E (_model (fst s)) effect eff
    end.
Proof.
  unfold build_commands. rewrite power_on_frame. step_call.
  set (s0 := (assign_state (Some true) (fst s), snd s)).
  set (c0 := [[51; 1; 1; 0; 0; 0; 0; 0; 0; 0; 0; 0; 0; 0; 0; 0; 0; 0; 0; 51]]).
  intros H.
  (* brightness *)
  assert (Hb : exists bri s1',
             turn_on_brightness kw c0 s0 = (inr (c0 ++ bri), s1') /\
             _use_percent (fst s1') = _use_percent (fst s) /\
             _is_segmented (fst s1') = _is_segmented (fst s) /\
             _model (fst s1') = _model (fst s) /\
             match ATTR_BRIGHTNESS kw with
             | None => bri = []
             | Some b =>
                 exists level frame,
                   brightness_level (fst s) b = inr level /\
                   _prepareSinglePacketData (PyInt LedCommand.BRIGHTNESS) (PyList [PyInt level])
                   = inr frame /\
                   bri = [frame]
             end).
  { pose proof (turn_on_brightness_spec kw c0 s0) as Hs.
    destruct (ATTR_BRIGHTNESS kw) as [b|].
    - change (brightness_level (fst s0) b) with (brightness_level (fst s) b) in Hs.
      destruct (brightness_level (fst s) b) as [e|level]; unfold Py.bind in Hs.
      + rewrite Hs in H. discriminate.
      + destruct (_prepareSinglePacketData (PyInt LedCommand.BRIGHTNESS) (PyList [PyInt level]))
          as [e|frame] eqn:Hf.
        * rewrite Hs in H. discriminate.
        * exists [frame]. eexists. split; [exact Hs|]. repeat split. eauto.
    - exists []. eexists. rewrite app_nil_r. split; [exact Hs|]. repeat split. }
  destruct Hb as (bri & s1' & Hb & Hp & Hseg & Hmod & Hbri). rewrite Hb in H.
  (* colour *)
  assert (Hc : exists col s2,
             turn_on_color kw (c0 ++ bri) s1' = (inr ((c0 ++ bri) ++ col), s2) /\
             _model (fst s2) = _model (fst s1') /\
             match ATTR_RGB_COLOR kw with
             | None => col = []
             | Some (r, g, b) =>
                 exists frame,
                   _prepareSinglePacketData (PyInt LedCommand.COLOR) (color_payload (fst s) r g b)
                   = inr frame /\
                   col = [frame]
             end).
  { pose proof (turn_on_color_spec kw (c0 ++ bri) s1') as Hs.
    destruct (ATTR_RGB_COLOR kw) as [[[r g] b]|].
    - replace (color_payload (fst s1') r g b) with (color_payload (fst s) r g b) in Hs
        by (unfold color_payload; now rewrite Hseg).
      destruct (_prepareSinglePacketData (PyInt LedCommand.COLOR) (color_payload (fst s) r g b))
        as [e|frame] eqn:Hf.
      + rewrite Hs in H. discriminate.
      + exists [frame]. eexists. split; [exact Hs|]. split; [reflexivity|]. eauto.
    - exists []. eexists. rewrite app_nil_r. split; [exact Hs|]. split; reflexivity. }
  destruct Hc as (col & s2 & Hc & Hmod2 & Hcol). rewrite Hc in H.
  (* effect *)
  destruct (turn_on_effect_spec E kw ((c0 ++ bri) ++ col) s2) as (_ & He).
  rewrite H in He. destruct (He commands eq_refl) as (eff & -> & He1).
  rewrite Hmod2, Hmod in He1.
  exists [51; 1; 1; 0; 0; 0; 0; 0; 0; 0; 0; 0; 0; 0; 0; 0; 0; 0; 0; 51], bri, col, eff.
  split; [unfold c0; now rewrite <- !app_assoc|].
  split; [reflexivity|]. auto.
Qed.

(** A turn-on call that completes delivered exactly its commands, in
    the order in which they were built. *)
Lemma turn_on_delivers (E : env) (kw : kwargs) (s s1 s' : state) (commands : list (list Z)) :
  build_commands E kw s = (inr commands, s1) ->
  async_turn_on E kw s = (inr tt, s') ->
  exists links,
    List.length links = List.length commands /\
    sent s s' = combine links commands /\
    Forall (fun l => exists k, (conn_calls (snd s) <= k < conn_calls (snd s'))%nat /\
                               establish_connection E k = inr l) links.
Proof.
  intros Hb Hrun. unfold async_turn_on, mbind in Hrun. rewrite Hb in Hrun.
  pose proof (build_commands_world E kw s) as (Hw & _). rewrite Hb in Hw. cbn [snd] in Hw.
  apply send_commands_spec in Hrun. destruct Hrun as (links & Hlen & Hwr & _ & Hall).
  rewrite Hw in *. exists links. split; [exact Hlen|]. split; [|exact Hall].
  unfold sent. rewrite Hwr. apply skipn_length_app.
Qed.

(** The links of a run of connect loops were returned by calls made
    during the run, at least one call and at most three for each. *)
Lemma linked_per_frame_within (E : env) (links : list link) :
  forall from upto,
    linked_per_frame E from links upto ->
    (from + List.length links <= upto <= from + 3 * List.length links)%nat /\
    Forall (fun l => exists k, (from <= k < upto)%nat /\
                               establish_connection E k = inr l) links.
Proof.
  induction links as [|l rest IH]; intros from upto H; cbn [linked_per_frame] in H.
  - subst upto. cbn [List.length]. split; [lia|constructor].
  - destruct H as (k & Hk & _ & Hok & Hrest). apply IH in Hrest as (Hle & Hall).
    cbn [List.length]. split; [lia|]. constructor.
    + exists (from + k)%nat. split; [lia|exact Hok].
    + eapply Forall_impl; [|exact Hall]. cbn.
      intros l' (j & Hj & Hj'). exists j. split; [lia|exact Hj'].
Qed.

(** A turn-on call that completes ran one connect loop for each of its
    commands. *)
Lemma turn_on_links (E : env) (kw : kwargs) (s s1 s' : state) (commands : list (list Z)) :
  build_commands E kw s = (inr commands, s1) ->
  async_turn_on E kw s = (inr tt, s') ->
  exists links,
    List.length links = List.length commands /\
    sent s s' = combine links commands /\
    linked_per_frame E (conn_calls (snd s)) links (conn_calls (snd s')).
Proof.
  intros Hb Hrun. unfold async_turn_on, mbind in Hrun. rewrite Hb in Hrun.
  pose proof (build_commands_world E kw s) as (Hw & _). rewrite Hb in Hw. cbn [snd] in Hw.
  apply send_commands_links in Hrun. destruct Hrun as (links & Hlen & Hwr & Hall).
  rewrite Hw in *. exists links. split; [exact Hlen|]. split; [|exact Hall].
  unfold sent. rewrite Hwr. apply skipn_length_app.
Qed.

(** With valid levels and no effect the builder always returns its
    commands. *)
Lemma build_commands_total (E : env) (kw : kwargs) (s : state) :
  valid_levels kw ->
  ATTR_EFFECT kw = None ->
  exists commands, build_commands E kw s = (inr commands, (recorded kw (fst s), snd s)).
Proof.
  intros Hv He. destruct (build_commands_valid E kw s Hv) as (c & ->).
  exists c. unfold turn_on_effect. rewrite He. reflexivity.
Qed.

(** With valid levels and an effect that resolves the builder returns
    its commands, ending with the packets of the effect. *)
Lemma build_commands_with_effect (E : env) (kw : kwargs) (s : state)
    (effect : string) (packets : list (list Z)) :
  valid_levels kw ->
  ATTR_EFFECT kw = Some effect ->
  effect_resolves E (_model (fst s)) effect packets ->
  exists front,
    build_commands E kw s = (inr (front ++ packets), (recorded kw (fst s), snd s)).
Proof.
  intros Hv He Hres. destruct (build_commands_valid E kw s Hv) as (c & ->).
  exists c. apply (turn_on_effect_resolves E kw c _ effect packets He).
  cbn [fst]. replace (_model (recorded kw (fst s))) with (_model (fst s)); [exact Hres|].
  unfold recorded. destruct (ATTR_BRIGHTNESS kw), (ATTR_RGB_COLOR kw); reflexivity.
Qed.

(** C4. The commands of a turn-on call are the Power-on frame, then the
    Brightness frame if a brightness is given, then the Color frame if
    a colour is given, then the frames of the effect: the packets that
    the splitter makes of the blob of the special effect named by the
    index path, and nothing when there is no effect or no index path
    in its name. A call that completes wrote them in that order. With
    levels in 0..255 the commands are always built when there is no
    effect, and when the effect resolves they end with its packets.
    For brightness 128 and colour (255, 0, 0) on a model that is
    neither segmented nor percent-scaled they are exactly three
    frames: Power-on, Brightness(128), manual Color(255, 0, 0). *)
Theorem turn_on_frame_order (E : env) (kw : kwargs) (s : state) :
  (forall commands s1,
     build_commands E kw s = (inr commands, s1) ->
     (exists power bri col eff,
        commands = [power] ++ bri ++ col ++ eff /\
        _prepareSinglePacketData (PyInt LedCommand.POWER) (PyList [PyInt 0x1]) = inr power /\
        match ATTR_BRIGHTNESS kw with
        | None => bri = []
        | Some b =>
            exists level frame,
              brightness_level (fst s) b = inr level /\
              _prepareSinglePacketData (PyInt LedCommand.BRIGHTNESS) (PyList [PyInt level])
              = inr frame /\
              bri = [frame]
        end /\
        match ATTR_RGB_COLOR kw with
        | None => col = []
        | Some (r, g, b) =>
            exists frame,
              _prepareSinglePacketData (PyInt LedCommand.COLOR) (color_payload (fst s) r g b)
              = inr frame /\
              col = [frame]
        end /\
        match ATTR_EFFECT kw with
        | None => eff = []
        | Some effect =>
            (EffectParse.search effect = None /\ eff = []) \/
            effect_resolves E (_model (fst s)) effect eff
        end /\
        (ATTR_EFFECT kw = None -> eff = []) /\
        (eff = [] \/ exists blob, prepareMultiplePacketsData E 0xa3 [0x02] blob = inr eff)) /\
     (forall s', async_turn_on E kw s = (inr tt, s') -> map snd (sent s s') = commands)) /\
  (valid_levels kw -> ATTR_EFFECT kw = None ->
   exists commands s1, build_commands E kw s = (inr commands, s1)) /\
  (forall effect packets,
     valid_levels kw -> ATTR_EFFECT kw = Some effect ->
     effect_resolves E (_model (fst s)) effect packets ->
     exists power bri col s1,
       build_commands E kw s = (inr ([power] ++ bri ++ col ++ packets), s1) /\
       (List.length bri <= 1)%nat /\ (List.length col <= 1)%nat) /\
  (_is_segmented (fst s) = false ->
   _use_percent (fst s) = false ->
   fst (build_commands E (mkKwargs (Some 128) (Some (255, 0, 0)) None) s)
   = inr [[0x33; 0x01; 0x01; 0; 0; 0; 0; 0; 0; 0; 0; 0; 0; 0; 0; 0; 0; 0; 0; 0x33];
          [0x33; 0x04; 128; 0; 0; 0; 0; 0; 0; 0; 0; 0; 0; 0; 0; 0; 0; 0; 0; 183];
          [0x33; 0x05; 0x02; 255; 0; 0; 0; 0; 0; 0; 0; 0; 0; 0; 0; 0; 0; 0; 0; 203]]).
Proof.
  assert (Hframes : forall commands s1,
             build_commands E kw s = (inr commands, s1) ->
             exists power bri col eff,
               commands = [power] ++ bri ++ col ++ eff /\
               _prepareSinglePacketData (PyInt LedCommand.POWER) (PyList [PyInt 0x1])
               = inr power /\
               (List.length bri <= 1)%nat /\ (List.length col <= 1)%nat /\
               match ATTR_EFFECT kw with
               | None => eff = []
               | Some effect =>
                   (EffectParse.search effect = None /\ eff = []) \/
                   effect_resolves E (_model (fst s)) effect eff
               end).
  { intros commands s1 Hb.
    destruct (build_commands_frames E kw s s1 commands Hb)
      as (power & bri & col & eff & Hc & Hp & Hbri & Hcol & Heff).
    exists power, bri, col, eff. repeat split; try assumption.
    - destruct (ATTR_BRIGHTNESS kw); [destruct Hbri as (? & ? & _ & _ & ->)|subst bri];
        simpl; lia.
    - destruct (ATTR_RGB_COLOR kw) as [[[? ?] ?]|]; [destruct Hcol as (? & _ & ->)|subst col];
        simpl; lia. }
  split; [|split; [|split]].
  - intros commands s1 Hb. split.
    + destruct (build_commands_frames E kw s s1 commands Hb)
        as (power & bri & col & eff & Hc & Hp & Hbri & Hcol & Heff).
      exists power, bri, col, eff. repeat split; try assumption.
      * intros Hnone. now rewrite Hnone in Heff.
      * destruct (ATTR_EFFECT kw) as [effect|]; [|now left].
        destruct Heff as [(_ & ->)|Hres]; [now left|]. right.
        destruct Hres as (g1 & g2 & g3 & g4 & i0 & i1 & i2 & i3 & json_data & sp & param
                          & blob & H). exists blob. intuition.
    + intros s' Hrun.
      destruct (turn_on_delivers E kw s s1 s' commands Hb Hrun) as (links & Hlen & -> & _).
      apply map_snd_combine. exact Hlen.
  - intros Hv He. destruct (build_commands_total E kw s Hv He) as (c & Hc). eauto.
  - intros effect packets Hv He Hres.
    destruct (build_commands_with_effect E kw s effect packets Hv He Hres) as (front & Hb).
    destruct (Hframes _ _ Hb) as (power & bri & col & eff & Hc & _ & Hlb & Hlc & Heff).
    rewrite He in Heff.
    assert (Heq : eff = packets).
    { destruct Heff as [(Hnone & ->)|Hres'].
      - destruct Hres as (g1 & g2 & g3 & g4 & ? & ? & ? & ? & ? & ? & ? & ? & Hs & _).
        congruence.
      - destruct Hres as (g1 & g2 & g3 & g4 & i0 & i1 & i2 & i3 & j & sp & pa & bl
                          & Hs & H0 & H1 & H2 & H3 & Hcat & Hlook & Hpa & Hbl & Hpk).
        destruct Hres' as (g1' & g2' & g3' & g4' & i0' & i1' & i2' & i3' & j' & sp' & pa' & bl'
                           & Hs' & H0' & H1' & H2' & H3' & Hcat' & Hlook' & Hpa' & Hbl' & Hpk').
        rewrite Hs in Hs'. injection Hs' as <- <- <- <-.
        rewrite H0 in H0'. injection H0' as <-. rewrite H1 in H1'. injection H1' as <-.
        rewrite H2 in H2'. injection H2' as <-. rewrite H3 in H3'. injection H3' as <-.
        rewrite Hcat in Hcat'. injection Hcat' as <-.
        rewrite Hlook in Hlook'. injection Hlook' as <-.
        rewrite Hpa in Hpa'. injection Hpa' as <-.
        rewrite Hbl in Hbl'. injection Hbl' as <-.
        rewrite Hpk in Hpk'. now injection Hpk' as <-. }
    subst eff. exists power, bri, col. eexists. rewrite <- Hc. split; [exact Hb|]. split; assumption.
  - destruct s as [self w]. cbn [fst]. intros Hseg Hp.
    destruct self as [mac model seg pct st br rgb]. cbn in Hseg, Hp. subst seg pct.
    reflexivity.
Qed.

Lemma turn_on_frame_order_witness :
  map snd (sent (sample_h617a, world0)
             (snd (async_turn_on env_fresh_links
                     (mkKwargs (Some 128) (Some (10, 20, 30))
                               (Some "Life - Sunrise - A [0/0/0/0]"))
                     (sample_h617a, world0))))
  = [[0x33; 0x01; 0x01; 0; 0; 0; 0; 0; 0; 0; 0; 0; 0; 0; 0; 0; 0; 0; 0; 0x33];
     [0x33; 0x04; 50; 0; 0; 0; 0; 0; 0; 0; 0; 0; 0; 0; 0; 0; 0; 0; 0; 5];
     [0x33; 0x05; 0x15; 0x01; 10; 20; 30; 0; 0; 0; 0; 0; 0xFF; 0x7F; 0; 0; 0; 0; 0; 162];
     [0xa3; 0x02; 1; 2; 3]].
Proof.
  refine (proj2 (proj1 (turn_on_frame_order env_fresh_links
                          (mkKwargs (Some 128) (Some (10, 20, 30))
                                    (Some "Life - Sunrise - A [0/0/0/0]"))
                          (sample_h617a, world0)) _ _ _) _ _).
  - vm_compute. reflexivity.
  - vm_compute. reflexivity.
Defined.

(** ** One logical command and its links *)

(** C5, as first stated, does not hold: with surroundings in which
    every connection returns a new link, the two frames of a turn-on
    call with a brightness go over two different links. *)
Lemma frames_not_on_one_link :
  ~ (forall (E : env) (i : intent) (s s' : state),
       run_intent E i s = (inr tt, s') -> one_link (sent s s')).
Proof.
  intros H.
  specialize (H env_fresh_links (TurnOn (mkKwargs (Some 128) None None))
                (sample_flat, world0) _ eq_refl).
  destruct H as (l & Hall). vm_compute in Hall.
  pose proof (Forall_inv Hall) as H1.
  pose proof (Forall_inv (Forall_inv_tail Hall)) as H2.
  cbn in H1, H2. congruence.
Qed.

(** C5, amended. A turn-on or turn-off call that completes wrote the
    frames of that command and nothing else, in the order in which
    they were built. It ran the connect loop once for each frame, one
    run after the other: the link of a frame is the first success of
    the at most three connection calls made for that frame, after
    failures that were caught, and the calls for the next frame start
    where those for this one ended. So the call made at least one
    connection for each frame and at most three, and no frame was
    written over the link of an earlier one unless a new connection
    returned that link again. *)
Theorem intent_frames_in_order (E : env) (i : intent) (s s' : state) :
  run_intent E i s = (inr tt, s') ->
  exists links frames,
    List.length links = List.length frames /\
    sent s s' = combine links frames /\
    match i with
    | TurnOn kw => exists s1, build_commands E kw s = (inr frames, s1)
    | TurnOff =>
        exists frame,
          _prepareSinglePacketData (PyInt LedCommand.POWER) (PyList [PyInt 0x0]) = inr frame /\
          frames = [frame]
    end /\
    linked_per_frame E (conn_calls (snd s)) links (conn_calls (snd s')) /\
    (conn_calls (snd s) + List.length frames <= conn_calls (snd s')
     <= conn_calls (snd s) + 3 * List.length frames)%nat /\
    Forall (fun l => exists k, (conn_calls (snd s) <= k < conn_calls (snd s'))%nat /\
                               establish_connection E k = inr l) links.
Proof.
  intros Hrun.
  assert (H : exists links frames,
             List.length links = List.length frames /\
             sent s s' = combine links frames /\
             match i with
             | TurnOn kw => exists s1, build_commands E kw s = (inr frames, s1)
             | TurnOff =>
                 exists frame,
                   _prepareSinglePacketData (PyInt LedCommand.POWER) (PyList [PyInt 0x0])
                   = inr frame /\
                   frames = [frame]
             end /\
             linked_per_frame E (conn_calls (snd s)) links (conn_calls (snd s'))).
  { destruct i as [kw|]; cbn [run_intent] in Hrun.
    - destruct (build_commands E kw s) as [[e|commands] s1] eqn:Hb.
      + unfold async_turn_on, mbind in Hrun. rewrite Hb in Hrun. discriminate.
      + destruct (turn_on_links E kw s s1 s' commands Hb Hrun) as (links & Hlen & Hs & Hall).
        exists links, commands. repeat split; try assumption. exists s1. reflexivity.
    - unfold async_turn_off, mbind, _connectBluetooth in Hrun.
      destruct (connect_loop E 3 s) as [r s1] eqn:Hc.
      pose proof (connect_loop_outcome E 3 s s1 r Hc) as (k & Hfail & Hr).
      apply connect_loop_spec in Hc. destruct Hc as (_ & Hw1 & _).
      destruct r as [e|client]; [discriminate|].
      rewrite power_off_frame in Hrun. unfold lift in Hrun.
      match type of Hrun with
      | context [await_write_gatt_char E client ?f s1] =>
          destruct (await_write_gatt_char E client f s1) as [r2 s2] eqn:Hw
      end.
      apply await_write_spec in Hw. destruct Hw as (_ & Hcc2 & Hw2).
      destruct r2 as [e|[]]; [discriminate|].
      destruct (Hw2 eq_refl) as (l & -> & Hw2').
      destruct Hr as (Hk & Hok & Hcc1).
      unfold set_self in Hrun. injection Hrun as <-. cbn [snd].
      exists [l], [[0x33; 0x01; 0x00; 0; 0; 0; 0; 0; 0; 0; 0; 0; 0; 0; 0; 0; 0; 0; 0; 0x32]].
      split; [reflexivity|]. split; [|split].
      + unfold sent. cbn [snd]. rewrite Hw2', Hw1. apply skipn_length_app.
      + eexists. split; [apply power_off_frame | reflexivity].
      + cbn [linked_per_frame]. exists k. repeat split; try assumption. congruence. }
  destruct H as (links & frames & Hlen & Hs & Hi & Hl).
  destruct (linked_per_frame_within E links _ _ Hl) as (Hn & Hall).
  rewrite Hlen in Hn.
  exists links, frames. repeat split; try assumption; apply Hn.
Qed.

Lemma intent_frames_in_order_witness :
  exists links frames,
    List.length links = List.length frames /\
    sent (sample_flat, world0)
         (snd (run_intent env_third_attempt (TurnOn (mkKwargs (Some 128) None None))
                 (sample_flat, world0)))
    = combine links frames /\
    (exists s1, build_commands env_third_attempt (mkKwargs (Some 128) None None)
                  (sample_flat, world0) = (inr frames, s1)) /\
    linked_per_frame env_third_attempt 0 links 4 /\
    (0 + List.length frames <= 4 <= 0 + 3 * List.length frames)%nat /\
    Forall (fun l => exists k, (0 <= k < 4)%nat /\
                               establish_connection env_third_attempt k = inr l) links.
Proof.
  apply (intent_frames_in_order env_third_attempt (TurnOn (mkKwargs (Some 128) None None))
           (sample_flat, world0)).
  vm_compute. reflexivity.
Defined.

(** ** Effects that the catalog does not have *)










(** ** What a failing call leaves behind *)

Lemma build_commands_entity (E : env) (kw : kwargs) (s : state) :
  valid_levels kw ->
  snd (build_commands E kw s) = (recorded kw (fst s), snd s).
Proof.
  intros Hv. destruct (build_commands_valid E kw s Hv) as (c & ->).
  apply (proj1 (turn_on_effect_spec E kw c _)).
Qed.

Lemma async_turn_on_entity (E : env) (kw : kwargs) (s : state) :
  fst (snd (async_turn_on E kw s)) = fst (snd (build_commands E kw s)).
Proof.
  unfold async_turn_on, mbind.
  destruct (build_commands E kw s) as [[e|commands] s1]; cbn [fst snd]; [reflexivity|].
  apply send_commands_entity.
Qed.

(** C9. [async_turn_on] assigns [_state], [_brightness] and
    [_rgb_color] while it builds the commands, before any connection
    or write; the sending loop assigns nothing. Whatever the outcome
    of the call (the effect lookup, a connection or a write may
    fail), the entity ends with [_state = True] and with the requested
    brightness and colour, for levels in 0..255. *)
Theorem turn_on_state_persists (E : env) (kw : kwargs) (s : state) :
  valid_levels kw ->
  snd (build_commands E kw s) = (recorded kw (fst s), snd s) /\
  fst (snd (async_turn_on E kw s)) = recorded kw (fst s) /\
  _state (fst (snd (async_turn_on E kw s))) = Some true /\
  _brightness (fst (snd (async_turn_on E kw s)))
  = match ATTR_BRIGHTNESS kw with
    | Some b => Some b
    | None => _brightness (fst s)
    end /\
  _rgb_color (fst (snd (async_turn_on E kw s)))
  = match ATTR_RGB_COLOR kw with
    | Some c => Some c
    | None => _rgb_color (fst s)
    end.
Proof.
  intros Hv. pose proof (build_commands_entity E kw s Hv) as Hb.
  assert (Hf : fst (snd (async_turn_on E kw s)) = recorded kw (fst s))
    by (rewrite async_turn_on_entity, Hb; reflexivity).
  split; [exact Hb|]. split; [exact Hf|]. rewrite Hf. unfold recorded.
  destruct (ATTR_BRIGHTNESS kw), (ATTR_RGB_COLOR kw); repeat split.
Qed.

Lemma turn_on_state_persists_witness :
  fst (async_turn_on env_unreachable (mkKwargs (Some 128) (Some (10, 20, 30)) None)
         (sample_h617a, world0)) = inl AttributeError /\
  _state (fst (snd (async_turn_on env_unreachable (mkKwargs (Some 128) (Some (10, 20, 30)) None)
                      (sample_h617a, world0)))) = Some true /\
  _brightness (fst (snd (async_turn_on env_unreachable
                           (mkKwargs (Some 128) (Some (10, 20, 30)) None)
                           (sample_h617a, world0)))) = Some 128 /\
  _rgb_color (fst (snd (async_turn_on env_unreachable
                          (mkKwargs (Some 128) (Some (10, 20, 30)) None)
                          (sample_h617a, world0)))) = Some (10, 20, 30).
Proof.
  split; [reflexivity|].
  refine (proj2 (proj2 (turn_on_state_persists env_unreachable
                          (mkKwargs (Some 128) (Some (10, 20, 30)) None)
                          (sample_h617a, world0) _))).
  unfold valid_levels. cbn [ATTR_BRIGHTNESS ATTR_RGB_COLOR]. lia.
Defined.

(** ** The connect loop at its bound *)

(** C2, evaluated where every attempt fails: [_connectBluetooth]
    makes three attempts and then returns [None]; it raises nothing.
    The error that the caller sees is the [AttributeError] of the
    write on [None]. An attempt that succeeds, here the third, returns
    its link. *)
Theorem connectBluetooth_exhausted_returns_None :
  _connectBluetooth env_unreachable (sample_flat, world0)
  = (inr None, (sample_flat, {| conn_calls := 3; write_calls := 0; written := [] |})) /\
  async_turn_off env_unreachable (sample_flat, world0)
  = (inl AttributeError,
     (sample_flat, {| conn_calls := 3; write_calls := 0; written := [] |})) /\
  fst (async_turn_on env_unreachable (mkKwargs None None None) (sample_flat, world0))
  = inl AttributeError /\
  _connectBluetooth env_third_attempt (sample_flat, world0)
  = (inr (Some 2%nat),
     (sample_flat, {| conn_calls := 3; write_calls := 0; written := [] |})).
Proof. repeat split. Qed.

(** * Further properties of the code *)

(** ** The frame codec: outcomes *)

Lemma check_arguments_error (cmd payload : pyval) (e : exn) :
  check_arguments cmd payload = inl e ->
  e = ValueError "Invalid command" \/ e = ValueError "Invalid payload"
  \/ e = ValueError "Payload too long".
Proof.
  unfold check_arguments, raise, ret.
  destruct (isinstance_int cmd); simpl; [|intros [= <-]; auto].
  destruct payload as [| | | | |bs|xs|]; simpl; try (intros [= <-]; now auto).
  - destruct (17 <? _); [intros [= <-]; auto | intros [=]].
  - destruct (forallb isinstance_int xs); simpl; [|intros [= <-]; now auto].
    destruct (17 <? _); [intros [= <-]; auto | intros [=]].
Qed.

Lemma check_arguments_types (cmd payload : pyval) :
  check_arguments cmd payload = inr tt ->
  isinstance_int cmd = true /\ payload_type_ok payload = true /\
  exists n, Py.len payload = inr n /\ n <= 17.
Proof.
  unfold check_arguments, payload_type_ok, raise, ret.
  destruct (isinstance_int cmd); simpl; [|discriminate].
  destruct payload as [| | | | |bs|xs|]; simpl; try discriminate.
  - destruct (17 <? _) eqn:Hn; [discriminate|]. intros _.
    repeat split. eexists. split; [reflexivity|]. now apply Z.ltb_ge.
  - destruct (forallb isinstance_int xs); simpl; [|discriminate].
    destruct (17 <? _) eqn:Hn; [discriminate|]. intros _.
    repeat split. eexists. split; [reflexivity|]. now apply Z.ltb_ge.
Qed.

Lemma bytes_of_list_error (xs : list pyval) (e : exn) :
  forallb isinstance_int xs = true ->
  bytes_of_list xs = inl e ->
  e = ValueError "bytes must be in range(0, 256)".
Proof.
  induction xs as [|x xs IH]; simpl; [discriminate|].
  intros Hi. apply andb_true_iff in Hi as [Hx Hxs]. rewrite Hx.
  destruct (is_byte (int_value x)); [|intros [= <-]; reflexivity].
  destruct (bytes_of_list xs) as [e'|bs]; simpl; [|discriminate].
  intros [= <-]. now apply IH.
Qed.

(** X1. The only exception that leaves [_prepareSinglePacketData] is a
    [ValueError], with one of four messages: three from its own tests
    and one from the conversion to bytes. *)
Theorem prepareSinglePacketData_only_ValueError (cmd payload : pyval) (e : exn) :
  _prepareSinglePacketData cmd payload = inl e ->
  e = ValueError "Invalid command" \/ e = ValueError "Invalid payload"
  \/ e = ValueError "Payload too long"
  \/ e = ValueError "bytes must be in range(0, 256)".
Proof.
  unfold _prepareSinglePacketData.
  destruct (check_arguments cmd payload) as [e'|[]] eqn:Hc; simpl.
  - intros [= <-]. apply check_arguments_error in Hc. tauto.
  - apply check_arguments_types in Hc. destruct Hc as (_ & Ht & _).
    unfold assemble_frame, payload_type_ok in *.
    destruct payload as [| | | | |bs|xs|]; simpl in Ht; try discriminate.
    unfold Py.bytes. destruct (bytes_of_list xs) as [e'|bs] eqn:Hb;
      unfold Py.bind, ret; [|intros [=]].
    intros [= <-]. apply bytes_of_list_error in Hb; auto.
Qed.

Lemma prepareSinglePacketData_only_ValueError_witness :
  ValueError "Invalid payload" = ValueError "Invalid command"
  \/ ValueError "Invalid payload" = ValueError "Invalid payload"
  \/ ValueError "Invalid payload" = ValueError "Payload too long"
  \/ ValueError "Invalid payload" = ValueError "bytes must be in range(0, 256)".
Proof.
  apply (prepareSinglePacketData_only_ValueError (PyInt 1) (PyList [PyStr "on"])).
  reflexivity.
Defined.

Lemma bytes_of_list_inv (xs : list pyval) (bs : list Z) :
  bytes_of_list xs = inr bs ->
  forallb (fun x => isinstance_int x && is_byte (int_value x)) xs = true.
Proof.
  revert bs. induction xs as [|x xs IH]; simpl; intros bs; [reflexivity|].
  destruct (isinstance_int x); [|discriminate].
  destruct (is_byte (int_value x)); [|discriminate].
  destruct (bytes_of_list xs) as [e|bs'] eqn:Hb; simpl; [discriminate|].
  intros _. simpl. eapply IH. reflexivity.
Qed.

(** X2. A list payload yields a frame exactly when the command is an
    integer, every item is an integer in 0..255 and there are at most
    17 items. *)
Theorem prepareSinglePacketData_succeeds_iff (cmd : pyval) (xs : list pyval) :
  (exists frame, _prepareSinglePacketData cmd (PyList xs) = inr frame) <->
  isinstance_int cmd = true /\
  forallb (fun x => isinstance_int x && is_byte (int_value x)) xs = true /\
  (List.length xs <= 17)%nat.
Proof.
  split.
  - intros (frame & H). unfold _prepareSinglePacketData in H.
    destruct (check_arguments cmd (PyList xs)) as [e|[]] eqn:Hc; simpl in H; [discriminate|].
    apply check_arguments_types in Hc. destruct Hc as (Hi & _ & n & Hn & Hle).
    simpl in Hn. injection Hn as <-.
    unfold assemble_frame in H. simpl Py.bytes in H.
    destruct (bytes_of_list xs) as [e|bs] eqn:Hb; simpl in H; [discriminate|].
    apply bytes_of_list_inv in Hb. repeat split; [exact Hi | exact Hb | lia].
  - intros (Hi & Hb & Hlen).
    assert (Hv : byte_values (PyList xs) = Some (map int_value xs)) by (simpl; now rewrite Hb).
    destruct (prepareSinglePacketData_ok cmd (PyList xs) _ Hi Hv) as (Hrun & _).
    + now rewrite length_map.
    + eexists. exact Hrun.
Qed.

Lemma xor_all_app (l r : list Z) : xor_all (l ++ r) = fold_left Z.lxor r (xor_all l).
Proof. unfold xor_all. apply fold_left_app. Qed.

(** X3. XOR-ing all 20 bytes of a frame gives zero: the check that a
    receiver makes accepts every frame that the codec builds. *)
Theorem frame_xor_is_zero (cmd payload : pyval) (bs : list Z) :
  isinstance_int cmd = true ->
  byte_values payload = Some bs ->
  (List.length bs <= 17)%nat ->
  exists frame,
    _prepareSinglePacketData cmd payload = inr frame /\ xor_all frame = 0.
Proof.
  intros Hc Hv Hlen.
  destruct (prepareSinglePacketData_ok cmd payload bs Hc Hv Hlen) as (Hrun & _ & _).
  eexists. split; [exact Hrun|].
  rewrite xor_all_app. simpl. apply Z.lxor_nilpotent.
Qed.

Lemma frame_xor_is_zero_witness :
  exists frame,
    _prepareSinglePacketData (PyInt 5) (PyBytes [2; 255; 0; 0]) = inr frame /\
    xor_all frame = 0.
Proof.
  apply (frame_xor_is_zero (PyInt 5) (PyBytes [2; 255; 0; 0]) [2; 255; 0; 0]).
  - reflexivity.
  - reflexivity.
  - simpl. lia.
Defined.

(** X4. Two calls return the same frame exactly when the commands agree
    on their low 8 bits and the payloads agree once padded with
    zeros to 17 bytes. So a list and a bytes object with the same
    values give one frame, and so do a payload and the same payload
    followed by zero bytes: the frame does not record where the
    payload ends. *)
Theorem frames_equal_iff (cmd1 cmd2 payload1 payload2 : pyval) (bs1 bs2 : list Z) :
  isinstance_int cmd1 = true -> isinstance_int cmd2 = true ->
  byte_values payload1 = Some bs1 -> byte_values payload2 = Some bs2 ->
  (List.length bs1 <= 17)%nat -> (List.length bs2 <= 17)%nat ->
  (_prepareSinglePacketData cmd1 payload1 = _prepareSinglePacketData cmd2 payload2 <->
   Z.land (int_value cmd1) 0xFF = Z.land (int_value cmd2) 0xFF /\
   bs1 ++ repeat 0 (17 - List.length bs1) = bs2 ++ repeat 0 (17 - List.length bs2)).
Proof.
  intros Hc1 Hc2 Hv1 Hv2 Hl1 Hl2.
  destruct (prepareSinglePacketData_ok cmd1 payload1 bs1 Hc1 Hv1 Hl1) as (-> & _ & _).
  destruct (prepareSinglePacketData_ok cmd2 payload2 bs2 Hc2 Hv2 Hl2) as (-> & _ & _).
  split.
  - intros [= Hc H]. apply app_inj_tail in H. destruct H as (H & _). auto.
  - intros (-> & ->). reflexivity.
Qed.

Lemma frames_equal_iff_witness :
  _prepareSinglePacketData (PyInt 0x105) (PyList [PyInt 2; PyInt 255])
  = _prepareSinglePacketData (PyInt 5) (PyBytes [2; 255; 0; 0]).
Proof.
  apply (frames_equal_iff (PyInt 0x105) (PyInt 5) (PyList [PyInt 2; PyInt 255])
           (PyBytes [2; 255; 0; 0]) [2; 255] [2; 255; 0; 0]);
    try reflexivity; try (simpl; lia).
  split; reflexivity.
Defined.

(** ** The connect loop: every outcome *)

Section TransportOutcomes.

Variable E : env.

(** X5. [_connectBluetooth] stops at the first attempt that does not raise
    an [Exception]: it returns the link of the first success, lets an
    exception pass that [except Exception] does not catch, and returns
    [None] exactly after three caught failures. It makes at most
    three attempts and changes nothing else. *)
Theorem connectBluetooth_outcome (s s' : state) (r : result (option link)) :
  _connectBluetooth E s = (r, s') ->
  fst s' = fst s /\
  written (snd s') = written (snd s) /\
  write_calls (snd s') = write_calls (snd s) /\
  exists k,
    (forall i, (i < k)%nat ->
       exists e, establish_connection E (conn_calls (snd s) + i) = inl e /\
                 is_Exception e = true) /\
    match r with
    | inr None => k = 3%nat /\ conn_calls (snd s') = (conn_calls (snd s) + 3)%nat
    | inr (Some l) =>
        (k < 3)%nat /\ establish_connection E (conn_calls (snd s) + k) = inr l /\
        conn_calls (snd s') = (conn_calls (snd s) + S k)%nat
    | inl e =>
        (k < 3)%nat /\ establish_connection E (conn_calls (snd s) + k) = inl e /\
        is_Exception e = false /\
        conn_calls (snd s') = (conn_calls (snd s) + S k)%nat
    end.
Proof.
  unfold _connectBluetooth. intros H.
  destruct (connect_loop_spec E 3 s s' r H) as (He & Hw & Hwc & _).
  repeat split; try assumption.
  exact (connect_loop_outcome E 3 s s' r H).
Qed.

Lemma await_write_failure (client : option link) (command : list Z) (s s' : state) (e : exn) :
  await_write_gatt_char E client command s = (inl e, s') ->
  written (snd s') = written (snd s).
Proof.
  unfold await_write_gatt_char. destruct client as [c|].
  - intros H. injection H as Hr <-. cbn [snd written]. rewrite Hr. reflexivity.
  - unfold mraise. intros H. injection H as _ <-. reflexivity.
Qed.

(** The sending loop stops at the first frame that it cannot send:
    what it wrote is a prefix of the commands, in order. *)
Lemma send_commands_prefix (commands : list (list Z)) :
  forall s s' r,
    send_commands E commands s = (r, s') ->
    exists k links,
      (k <= List.length commands)%nat /\
      List.length links = k /\
      written (snd s') = written (snd s) ++ combine links (firstn k commands) /\
      (r = inr tt -> k = List.length commands) /\
      (forall e, r = inl e -> (k < List.length commands)%nat) /\
      (conn_calls (snd s') <= conn_calls (snd s) + 3 * List.length commands)%nat.
Proof.
  induction commands as [|c rest IH]; intros s s' r H; simpl in H.
  - unfold mret in H. injection H as <- <-. exists 0%nat, []. cbn.
    rewrite app_nil_r. repeat split; try lia; try discriminate.
  - unfold mbind, _connectBluetooth in H.
    destruct (connect_loop E 3 s) as [r1 s1] eqn:Hc.
    apply connect_loop_spec in Hc. destruct Hc as (_ & Hw1 & _ & Hcc1 & _).
    destruct r1 as [e|client].
    { injection H as <- <-. exists 0%nat, []. cbn [firstn combine List.length].
      rewrite app_nil_r. repeat split; try lia; try assumption; try discriminate. }
    destruct (await_write_gatt_char E client c s1) as [r2 s2] eqn:Hw.
    destruct r2 as [e|[]].
    { pose proof (await_write_failure _ _ _ _ _ Hw) as Hw2.
      apply await_write_spec in Hw. destruct Hw as (_ & Hcc2 & _).
      injection H as <- <-. exists 0%nat, []. cbn [firstn combine List.length].
      rewrite app_nil_r. repeat split; try lia; try congruence; try discriminate. }
    apply await_write_spec in Hw. destruct Hw as (_ & Hcc2 & Hw2).
    destruct (Hw2 eq_refl) as (l & -> & Hw2').
    apply IH in H. destruct H as (k & links & Hk & Hlen & Hwr & Hok & Herr & Hcc).
    exists (S k), (l :: links). cbn [firstn combine List.length].
    repeat split; try lia.
    + rewrite Hwr, Hw2', Hw1, <- app_assoc. reflexivity.
    + intros Hr. rewrite (Hok Hr). reflexivity.
    + intros e He. specialize (Herr e He). lia.
Qed.

End TransportOutcomes.

Lemma connectBluetooth_outcome_witness :
  exists k,
    (forall i, (i < k)%nat ->
       exists e, establish_connection env_third_attempt (0 + i) = inl e /\
                 is_Exception e = true) /\
    (k < 3)%nat /\ establish_connection env_third_attempt (0 + k) = inr 2%nat /\
    3%nat = (0 + S k)%nat.
Proof.
  refine (proj2 (proj2 (proj2 (connectBluetooth_outcome env_third_attempt
                                 (sample_flat, world0)
                                 (sample_flat, {| conn_calls := 3; write_calls := 0;
                                                  written := [] |})
                                 (inr (Some 2%nat)) _)))).
  reflexivity.
Defined.

(** X6. A turn-on call writes a prefix of its commands and stops at the
    first frame that it cannot send; it completes exactly when it
    wrote them all. It attempts at most three connections per
    command. *)
Theorem turn_on_sends_prefix (E : env) (kw : kwargs) (s s1 : state) (commands : list (list Z)) :
  build_commands E kw s = (inr commands, s1) ->
  exists k,
    (k <= List.length commands)%nat /\
    map snd (sent s (snd (async_turn_on E kw s))) = firstn k commands /\
    (fst (async_turn_on E kw s) = inr tt <-> k = List.length commands) /\
    (conn_calls (snd (snd (async_turn_on E kw s)))
     <= conn_calls (snd s) + 3 * List.length commands)%nat.
Proof.
  intros Hb. unfold async_turn_on, mbind. rewrite Hb.
  pose proof (build_commands_world E kw s) as (Hw & _). rewrite Hb in Hw. cbn [snd] in Hw.
  destruct (send_commands E commands s1) as [r s'] eqn:Hs. cbn [fst snd].
  apply send_commands_prefix in Hs.
  destruct Hs as (k & links & Hk & Hlen & Hwr & Hok & Herr & Hcc).
  exists k. rewrite Hw in *. split; [exact Hk|]. split; [|split; [|exact Hcc]].
  - unfold sent. cbn [snd]. rewrite Hwr, skipn_length_app.
    apply map_snd_combine. rewrite Hlen, length_firstn. lia.
  - split; [exact Hok|]. intros ->. destruct r as [e|[]]; [|reflexivity].
    specialize (Herr e eq_refl). lia.
Qed.

Lemma turn_on_sends_prefix_witness :
  exists k,
    (k <= 3)%nat /\
    map snd (sent (sample_flat, world0)
               (snd (async_turn_on env_second_write_fails
                       (mkKwargs (Some 128) (Some (255, 0, 0)) None) (sample_flat, world0))))
    = firstn k
        [[0x33; 0x01; 0x01; 0; 0; 0; 0; 0; 0; 0; 0; 0; 0; 0; 0; 0; 0; 0; 0; 0x33];
         [0x33; 0x04; 128; 0; 0; 0; 0; 0; 0; 0; 0; 0; 0; 0; 0; 0; 0; 0; 0; 183];
         [0x33; 0x05; 0x02; 255; 0; 0; 0; 0; 0; 0; 0; 0; 0; 0; 0; 0; 0; 0; 0; 203]] /\
    (fst (async_turn_on env_second_write_fails
            (mkKwargs (Some 128) (Some (255, 0, 0)) None) (sample_flat, world0)) = inr tt
     <-> k = 3%nat) /\
    Nat.le (conn_calls (snd (snd (async_turn_on env_second_write_fails
                                    (mkKwargs (Some 128) (Some (255, 0, 0)) None)
                                    (sample_flat, world0)))))
           (0 + 3 * 3)%nat.
Proof.
  eapply (turn_on_sends_prefix env_second_write_fails
            (mkKwargs (Some 128) (Some (255, 0, 0)) None) (sample_flat, world0) _
            [[0x33; 0x01; 0x01; 0; 0; 0; 0; 0; 0; 0; 0; 0; 0; 0; 0; 0; 0; 0; 0; 0x33];
             [0x33; 0x04; 128; 0; 0; 0; 0; 0; 0; 0; 0; 0; 0; 0; 0; 0; 0; 0; 0; 183];
             [0x33; 0x05; 0x02; 255; 0; 0; 0; 0; 0; 0; 0; 0; 0; 0; 0; 0; 0; 0; 0; 203]]).
  vm_compute. reflexivity.
Defined.

(** ** Turning off *)

Lemma turn_off_outcome_entity (E : env) (s : state) :
  fst (snd (async_turn_off E s)) = fst s \/
  fst (snd (async_turn_off E s)) = assign_state (Some false) (fst s).
Proof.
  unfold async_turn_off, mbind, _connectBluetooth.
  destruct (connect_loop E 3 s) as [r1 s1] eqn:Hc.
  apply connect_loop_spec in Hc. destruct Hc as (He1 & _).
  destruct r1 as [e|client]; cbn [fst snd]; [left; exact He1|].
  rewrite power_off_frame. unfold lift.
  match goal with
  | |- context [await_write_gatt_char E client ?f s1] =>
      destruct (await_write_gatt_char E client f s1) as [r2 s2] eqn:Hw
  end.
  apply await_write_spec in Hw. destruct Hw as (He2 & _).
  destruct r2 as [e|[]]; cbn [fst snd].
  - left. congruence.
  - right. unfold set_self. cbn [fst snd]. congruence.
Qed.

(** X7. [async_turn_off] assigns [_state] only after the write: a call
    that completes wrote the one Power-off frame and left the entity
    off; a call that fails wrote nothing and left the entity as it
    was. Brightness and colour are never touched. *)
Theorem turn_off_outcome (E : env) (s : state) :
  (fst (async_turn_off E s) = inr tt ->
   fst (snd (async_turn_off E s)) = assign_state (Some false) (fst s) /\
   exists l,
     sent s (snd (async_turn_off E s))
     = [(l, [0x33; 0x01; 0x00; 0; 0; 0; 0; 0; 0; 0; 0; 0; 0; 0; 0; 0; 0; 0; 0; 0x32])]) /\
  (forall e, fst (async_turn_off E s) = inl e ->
     fst (snd (async_turn_off E s)) = fst s /\
     sent s (snd (async_turn_off E s)) = []) /\
  _brightness (fst (snd (async_turn_off E s))) = _brightness (fst s) /\
  _rgb_color (fst (snd (async_turn_off E s))) = _rgb_color (fst s).
Proof.
  unfold async_turn_off, mbind, _connectBluetooth.
  destruct (connect_loop E 3 s) as [r1 s1] eqn:Hc.
  apply connect_loop_spec in Hc. destruct Hc as (He1 & Hw1 & _).
  assert (Hnil : forall s2 : state, written (snd s2) = written (snd s) -> sent s s2 = []).
  { intros s2 H. unfold sent. rewrite H. apply skipn_all. }
  destruct r1 as [e|client]; cbn [fst snd].
  { split; [discriminate|]. split; [|rewrite He1; split; reflexivity].
    intros e0 _. split; [exact He1 | apply Hnil; exact Hw1]. }
  rewrite power_off_frame. unfold lift.
  match goal with
  | |- context [await_write_gatt_char E client ?f s1] =>
      destruct (await_write_gatt_char E client f s1) as [r2 s2] eqn:Hw
  end.
  destruct r2 as [e|[]]; cbn [fst snd].
  - pose proof (await_write_failure _ _ _ _ _ _ Hw) as Hw2.
    apply await_write_spec in Hw. destruct Hw as (He2 & _).
    split; [discriminate|]. split; [|rewrite He2, He1; split; reflexivity].
    intros e0 _. split; [congruence | apply Hnil; congruence].
  - apply await_write_spec in Hw. destruct Hw as (He2 & _ & Hw2).
    destruct (Hw2 eq_refl) as (l & _ & Hw2').
    unfold set_self. cbn [fst snd]. rewrite He2, He1.
    split; [|split; [discriminate | split; reflexivity]].
    intros _. split; [reflexivity|].
    exists l. unfold sent. cbn [snd]. rewrite Hw2', Hw1. apply skipn_length_app.
Qed.

(** ** Turning on: edge cases *)

Lemma prepareSinglePacketData_out_of_range (cmd : pyval) (xs : list pyval) :
  isinstance_int cmd = true ->
  forallb isinstance_int xs = true ->
  (List.length xs <= 17)%nat ->
  forallb (fun x => is_byte (int_value x)) xs = false ->
  _prepareSinglePacketData cmd (PyList xs)
  = inl (ValueError "bytes must be in range(0, 256)").
Proof.
  intros Hc Hi Hlen Hb. unfold _prepareSinglePacketData.
  rewrite (check_arguments_ok cmd (PyList xs) (Z.of_nat (List.length xs)));
    [|exact Hc|exact Hi|reflexivity|lia].
  unfold Py.bind at 1. unfold assemble_frame. simpl Py.bytes.
  rewrite (bytes_of_list_out_of_range xs Hi Hb). reflexivity.
Qed.

(** X8. A brightness outside 0..255 on a model with raw brightness: the
    Brightness frame cannot be built, the call raises [ValueError]
    before anything is sent, and the entity is left reported as on
    with its previous brightness. *)
Theorem turn_on_raw_brightness_out_of_range
    (E : env) (kw : kwargs) (self : entity) (w : world) (b : Z) :
  _use_percent self = false ->
  ATTR_BRIGHTNESS kw = Some b ->
  ~ (0 <= b <= 255) ->
  async_turn_on E kw (self, w)
  = (inl (ValueError "bytes must be in range(0, 256)"), (assign_state (Some true) self, w)).
Proof.
  intros Hp Hb Hr.
  unfold async_turn_on, build_commands. rewrite power_on_frame. step_call.
  match goal with
  | |- context [turn_on_brightness kw ?c ?s0] =>
      pose proof (turn_on_brightness_spec kw c s0) as Hs
  end.
  rewrite Hb in Hs. unfold brightness_level in Hs. cbn [fst assign_state _use_percent] in Hs.
  rewrite Hp in Hs. unfold Py.bind in Hs.
  assert (Hf : _prepareSinglePacketData (PyInt LedCommand.BRIGHTNESS) (PyList [PyInt b])
               = inl (ValueError "bytes must be in range(0, 256)")).
  { apply prepareSinglePacketData_out_of_range; try reflexivity; [simpl; lia|].
    simpl. rewrite andb_true_r. apply not_true_is_false.
    intros Hbyte. apply is_byte_iff in Hbyte. lia. }
  rewrite Hf in Hs. rewrite Hs. reflexivity.
Qed.

Lemma turn_on_raw_brightness_out_of_range_witness :
  async_turn_on env_fresh_links (mkKwargs (Some 256) None None) (sample_flat, world0)
  = (inl (ValueError "bytes must be in range(0, 256)"),
     (assign_state (Some true) sample_flat, world0)).
Proof.
  apply (turn_on_raw_brightness_out_of_range env_fresh_links
           (mkKwargs (Some 256) None None) sample_flat world0 256).
  - reflexivity.
  - reflexivity.
  - lia.
Defined.

(** X9. An effect name in which [EFFECT_PARSE] finds no index path (the
    empty name included) is ignored: the call does what it does
    without the effect, and the catalog is not read. *)
Theorem effect_without_path_ignored (E : env) (kw : kwargs) (s : state) (effect : string) :
  ATTR_EFFECT kw = Some effect ->
  EffectParse.search effect = None ->
  async_turn_on E kw s = async_turn_on E (without_effect kw) s.
Proof.
  intros He Hs.
  assert (Heff : forall c s2,
             turn_on_effect E kw c s2 = turn_on_effect E (without_effect kw) c s2).
  { intros c s2. unfold turn_on_effect. cbn [without_effect ATTR_EFFECT].
    rewrite He, Hs. destruct (String.eqb effect ""); reflexivity. }
  assert (Hbuild : build_commands E kw s = build_commands E (without_effect kw) s).
  { unfold build_commands, mbind.
    destruct (lift _ s) as [[e|power] s0]; [reflexivity|].
    destruct (set_self _ s0) as [[e|u] s0']; [reflexivity|].
    change (turn_on_brightness (without_effect kw)) with (turn_on_brightness kw).
    destruct (turn_on_brightness kw [power] s0') as [[e|c1] s1]; [reflexivity|].
    change (turn_on_color (without_effect kw)) with (turn_on_color kw).
    destruct (turn_on_color kw c1 s1) as [[e|c2] s2]; [reflexivity|].
    apply Heff. }
  unfold async_turn_on, mbind. rewrite Hbuild. reflexivity.
Qed.

Lemma effect_without_path_ignored_witness :
  async_turn_on env_no_catalog (mkKwargs (Some 128) None (Some "Sunrise")) (sample_flat, world0)
  = async_turn_on env_no_catalog (without_effect (mkKwargs (Some 128) None (Some "Sunrise")))
      (sample_flat, world0).
Proof.
  apply (effect_without_path_ignored env_no_catalog
           (mkKwargs (Some 128) None (Some "Sunrise")) (sample_flat, world0) "Sunrise").
  - reflexivity.
  - reflexivity.
Defined.

(** ** Identity of the entity *)

Lemma same_identity_refl (a : entity) : same_identity a a.
Proof. repeat split. Qed.

Lemma same_identity_trans (a b c : entity) :
  same_identity a b -> same_identity b c -> same_identity a c.
Proof. unfold same_identity. intuition congruence. Qed.

Lemma turn_on_brightness_identity (kw : kwargs) (commands : list (list Z)) (s : state) :
  same_identity (fst (snd (turn_on_brightness kw commands s))) (fst s).
Proof.
  pose proof (turn_on_brightness_spec kw commands s) as H.
  destruct (ATTR_BRIGHTNESS kw) as [b|]; [|rewrite H; apply same_identity_refl].
  destruct (Py.bind _ _) as [e|f]; rewrite H; repeat split.
Qed.

Lemma turn_on_color_identity (kw : kwargs) (commands : list (list Z)) (s : state) :
  same_identity (fst (snd (turn_on_color kw commands s))) (fst s).
Proof.
  pose proof (turn_on_color_spec kw commands s) as H.
  destruct (ATTR_RGB_COLOR kw) as [[[r g] b]|]; [|rewrite H; apply same_identity_refl].
  destruct (_prepareSinglePacketData _ _) as [e|f]; rewrite H; repeat split.
Qed.

Lemma build_commands_identity (E : env) (kw : kwargs) (s : state) :
  same_identity (fst (snd (build_commands E kw s))) (fst s).
Proof.
  unfold build_commands. rewrite power_on_frame. step_call.
  set (s0 := (assign_state (Some true) (fst s), snd s)).
  assert (H0 : same_identity (fst s0) (fst s)) by (repeat split).
  match goal with
  | |- context [turn_on_brightness kw ?c s0] =>
      pose proof (turn_on_brightness_identity kw c s0) as H1;
      destruct (turn_on_brightness kw c s0) as [[e|c1] s1]
  end; cbn [fst snd] in *.
  { eapply same_identity_trans; eassumption. }
  pose proof (turn_on_color_identity kw c1 s1) as H2.
  destruct (turn_on_color kw c1 s1) as [[e|c2] s2]; cbn [fst snd] in *.
  { eapply same_identity_trans; [eassumption|]. eapply same_identity_trans; eassumption. }
  rewrite (proj1 (turn_on_effect_spec E kw c2 s2)).
  eapply same_identity_trans; [eassumption|]. eapply same_identity_trans; eassumption.
Qed.

Lemma remove_char_absent (c : ascii) (s : string) :
  forall n, String.get n (remove_char c s) <> Some c.
Proof.
  induction s as [|c' s IH]; simpl; intros n; [discriminate|].
  destruct (Ascii.eqb c c') eqn:Hc; [apply IH|].
  destruct n as [|n]; simpl; [|apply IH].
  intros [= ->]. rewrite Ascii.eqb_refl in Hc. discriminate.
Qed.

Lemma run_intent_identity (E : env) (i : intent) (s : state) :
  same_identity (fst (snd (run_intent E i s))) (fst s).
Proof.
  destruct i as [kw|]; cbn [run_intent].
  - rewrite async_turn_on_entity. apply build_commands_identity.
  - pose proof (turn_off_outcome_entity E s) as [-> | ->]; repeat split.
Qed.

Lemma run_all_identity (E : env) (calls : list intent) :
  forall s, same_identity (fst (run_all E calls s)) (fst s).
Proof.
  induction calls as [|i rest IH]; intros s; simpl; [apply same_identity_refl|].
  eapply same_identity_trans; [apply IH | apply run_intent_identity].
Qed.

Lemma existsb_eqb_In (x : string) (l : list string) :
  existsb (String.eqb x) l = true <-> In x l.
Proof.
  rewrite existsb_exists. split.
  - intros (y & Hy & He). apply String.eqb_eq in He. now subst.
  - intros H. exists x. split; [exact H | apply String.eqb_refl].
Qed.

(** X10. What [__init__] sets stays for the life of the entity: after any
    series of turn-on and turn-off calls, whatever their outcomes, the
    address and the model are those given at construction, the entity
    is segmented exactly for the six listed models and percent-scaled
    exactly for H617A (so a percent-scaled entity is segmented), and
    [unique_id] is the address without its colons. *)
Theorem entity_identity_invariant
    (E : env) (calls : list intent) (address model : string) (w : world) :
  let self := fst (run_all E calls (__init__ address model, w)) in
  _mac self = address /\
  _model self = model /\
  (_is_segmented self = true <-> In model SEGMENTED_MODELS) /\
  (_use_percent self = true <-> model = "H617A") /\
  (_use_percent self = true -> _is_segmented self = true) /\
  Entity.unique_id self = remove_char ":" address /\
  forall n, String.get n (Entity.unique_id self) <> Some ":"%char.
Proof.
  cbv zeta.
  pose proof (run_all_identity E calls (__init__ address model, w)) as (Hm & Hmo & Hs & Hp).
  cbn [fst __init__ _mac _model _is_segmented _use_percent] in Hm, Hmo, Hs, Hp.
  revert Hm Hmo Hs Hp.
  generalize (fst (run_all E calls (__init__ address model, w))).
  intros self Hm Hmo Hs Hp.
  assert (Hseg : _is_segmented self = true <-> In model SEGMENTED_MODELS)
    by (rewrite Hs; apply existsb_eqb_In).
  assert (Hpct : _use_percent self = true <-> model = "H617A").
  { rewrite Hp, existsb_eqb_In. unfold PERCENT_MODELS. simpl. intuition congruence. }
  split; [exact Hm|]. split; [exact Hmo|]. split; [exact Hseg|]. split; [exact Hpct|].
  split; [|split].
  - intros H. apply Hseg. apply Hpct in H. rewrite H. apply existsb_eqb_In. reflexivity.
  - unfold Entity.unique_id. now rewrite Hm.
  - intros n. apply remove_char_absent.
Qed.

(** ** Effect labels: written by the effect list, read by turn-on *)

Lemma to_uint_not_Nil (n : nat) : Nat.to_uint n <> Decimal.Nil.
Proof.
  intros H. pose proof (DecimalNat.Unsigned.of_to n) as Hn. rewrite H in Hn.
  cbn in Hn. subst n. discriminate H.
Qed.

Lemma span_digits_stop (rest : string) :
  stops_digits rest -> EffectParse.span_digits rest = (EmptyString, rest).
Proof.
  destruct rest as [|c rest]; simpl; [reflexivity|]. intros ->. reflexivity.
Qed.

Lemma span_digits_uint (d : Decimal.uint) (rest : string) :
  stops_digits rest ->
  EffectParse.span_digits (NilEmpty.string_of_uint d ++ rest)
  = (NilEmpty.string_of_uint d, rest).
Proof.
  intros Hr. induction d; cbn [NilEmpty.string_of_uint append];
    try (cbn [EffectParse.span_digits]; change (EffectParse.is_digit _) with true;
         cbv iota; rewrite IHd; reflexivity).
  now apply span_digits_stop.
Qed.

Lemma digits_index (n : nat) (rest : string) :
  stops_digits rest ->
  EffectParse.digits (str_of_index n ++ rest) = Some (str_of_index n, rest).
Proof.
  intros Hr. unfold EffectParse.digits, str_of_index.
  rewrite span_digits_uint by exact Hr.
  pose proof (to_uint_not_Nil n) as Hn.
  destruct (Nat.to_uint n); try reflexivity. contradiction.
Qed.

Lemma int_of_digits_uint (d : Decimal.uint) :
  forall acc : nat,
    fold_left (fun acc c => 10 * acc + (Z.of_nat (nat_of_ascii c) - 48))
      (list_ascii_of_string (NilEmpty.string_of_uint d)) (Z.of_nat acc)
    = Z.of_nat (Nat.of_uint_acc d acc).
Proof.
  induction d; intros acc; cbn [NilEmpty.string_of_uint list_ascii_of_string fold_left Nat.of_uint_acc];
    [reflexivity|..];
    rewrite <- IHd; f_equal; rewrite Nat.tail_mul_spec;
    change (Z.of_nat (nat_of_ascii _)) with 48 || change (Z.of_nat (nat_of_ascii _)) with 49
    || change (Z.of_nat (nat_of_ascii _)) with 50 || change (Z.of_nat (nat_of_ascii _)) with 51
    || change (Z.of_nat (nat_of_ascii _)) with 52 || change (Z.of_nat (nat_of_ascii _)) with 53
    || change (Z.of_nat (nat_of_ascii _)) with 54 || change (Z.of_nat (nat_of_ascii _)) with 55
    || change (Z.of_nat (nat_of_ascii _)) with 56 || change (Z.of_nat (nat_of_ascii _)) with 57;
    lia.
Qed.

Lemma digits_value_index (n : nat) :
  EffectParse.digits_value (str_of_index n) = Z.of_nat n.
Proof.
  unfold EffectParse.digits_value, str_of_index.
  etransitivity; [exact (int_of_digits_uint (Nat.to_uint n) 0)|].
  change (Nat.of_uint_acc (Nat.to_uint n) 0) with (Nat.of_uint (Nat.to_uint n)).
  now rewrite DecimalNat.Unsigned.of_to.
Qed.

Lemma length_string_of_uint (d : Decimal.uint) :
  String.length (NilEmpty.string_of_uint d) = Decimal.nb_digits d.
Proof. induction d; simpl; congruence. Qed.

Lemma of_uint_acc_lower (d : Decimal.uint) :
  forall acc : nat,
    Z.of_nat acc * 10 ^ Z.of_nat (Decimal.nb_digits d) <= Z.of_nat (Nat.of_uint_acc d acc).
Proof.
  induction d; intros acc; cbn [Decimal.nb_digits Nat.of_uint_acc];
    [rewrite Z.pow_0_r; lia|..];
    (etransitivity; [|apply IHd]);
    rewrite Nat2Z.inj_succ, Z.pow_succ_r by lia;
    rewrite Nat.tail_mul_spec;
    assert (0 < 10 ^ Z.of_nat (Decimal.nb_digits d)) by (apply Z.pow_pos_nonneg; lia);
    nia.
Qed.

(** [str] of a natural number has no leading zero, except for "0". *)
Lemma to_uint_normal (n : nat) : Decimal.unorm (Nat.to_uint n) = Nat.to_uint n.
Proof.
  rewrite <- (DecimalNat.Unsigned.of_to n) at 2.
  now rewrite DecimalNat.Unsigned.to_of.
Qed.

Lemma normal_lower (d : Decimal.uint) :
  Decimal.unorm d = d ->
  Decimal.nb_digits d = 1%nat \/
  10 ^ (Z.of_nat (Decimal.nb_digits d) - 1) <= Z.of_nat (Nat.of_uint d).
Proof.
  intros H. destruct d as [|d|d|d|d|d|d|d|d|d|d];
    [discriminate H | left | right ..].
  1:{ destruct d as [|d|d|d|d|d|d|d|d|d|d]; try reflexivity;
      (rewrite DecimalFacts.unorm_D0 in H;
       match type of H with Decimal.unorm ?u = _ =>
         assert (Hu : u <> Decimal.Nil) by discriminate;
         pose proof (DecimalFacts.nb_digits_unorm u Hu) as Hn; rewrite H in Hn;
         cbn [Decimal.nb_digits] in Hn; lia end). }
  all: unfold Nat.of_uint; cbn [Decimal.nb_digits Nat.of_uint_acc];
    rewrite Nat2Z.inj_succ;
    replace (Z.succ (Z.of_nat (Decimal.nb_digits d)) - 1) with (Z.of_nat (Decimal.nb_digits d)) by lia;
    (etransitivity; [|apply of_uint_acc_lower]);
    rewrite Nat.tail_mul_spec;
    assert (0 < 10 ^ Z.of_nat (Decimal.nb_digits d)) by (apply Z.pow_pos_nonneg; lia);
    nia.
Qed.

(** An index below 10^4300 is written with at most 4300 digits. *)
Lemma index_text_short (n : nat) :
  within_int_limit n ->
  (String.length (str_of_index n) <= EffectParse.max_str_digits)%nat.
Proof.
  unfold within_int_limit. intros H. unfold str_of_index. rewrite length_string_of_uint.
  destruct (normal_lower (Nat.to_uint n) (to_uint_normal n)) as [H1|H1].
  - rewrite H1. unfold EffectParse.max_str_digits. lia.
  - rewrite DecimalNat.Unsigned.of_to in H1.
    assert (Hlt : 10 ^ (Z.of_nat (Decimal.nb_digits (Nat.to_uint n)) - 1)
                  < 10 ^ Z.of_nat EffectParse.max_str_digits) by lia.
    apply Z.pow_lt_mono_r_iff in Hlt; lia.
Qed.

(** [int(str(n))] for such an index is [n]. *)
Lemma int_of_digits_index (n : nat) :
  within_int_limit n ->
  EffectParse.int_of_digits (str_of_index n) = inr (Z.of_nat n).
Proof.
  intros H. unfold EffectParse.int_of_digits.
  pose proof (index_text_short n H) as Hl.
  apply Nat.ltb_ge in Hl. rewrite Hl. unfold ret.
  now rewrite digits_value_index.
Qed.

Lemma match_here_no_bracket (c : ascii) (s : string) :
  Ascii.eqb c "[" = false -> EffectParse.match_here (String c s) = None.
Proof.
  intros H. unfold EffectParse.match_here, EffectParse.literal.
  rewrite Ascii.eqb_sym, H. reflexivity.
Qed.

Lemma search_skip (pre rest : string) :
  no_bracket pre = true ->
  EffectParse.search (pre ++ rest) = EffectParse.search rest.
Proof.
  induction pre as [|c pre IH]; simpl; intros H; [reflexivity|].
  apply andb_true_iff in H as [Hc Hp]. apply negb_true_iff in Hc.
  fold (EffectParse.match_here (String c (pre ++ rest))).
  rewrite match_here_no_bracket by exact Hc. now apply IH.
Qed.

Lemma match_here_path (c s l x : nat) (rest : string) :
  EffectParse.match_here
    ("[" ++ str_of_index c ++ "/" ++ str_of_index s ++ "/"
         ++ str_of_index l ++ "/" ++ str_of_index x ++ "]" ++ rest)
  = Some (str_of_index c, str_of_index s, str_of_index l, str_of_index x).
Proof.
  unfold EffectParse.match_here.
  cbn [append EffectParse.literal]. rewrite Ascii.eqb_refl.
  rewrite digits_index by reflexivity.
  cbn [append EffectParse.literal]. rewrite Ascii.eqb_refl.
  rewrite digits_index by reflexivity.
  cbn [append EffectParse.literal]. rewrite Ascii.eqb_refl.
  rewrite digits_index by reflexivity.
  cbn [append EffectParse.literal]. rewrite Ascii.eqb_refl.
  rewrite digits_index by reflexivity.
  cbn [append EffectParse.literal]. rewrite Ascii.eqb_refl. reflexivity.
Qed.

(** Where [search] finds the path in a label. *)
Lemma search_effect_label (cn sn ln : string) (c s l x : nat) :
  no_bracket cn = true -> no_bracket sn = true -> no_bracket ln = true ->
  EffectParse.search (effect_label cn sn ln c s l x)
  = Some (str_of_index c, str_of_index s, str_of_index l, str_of_index x).
Proof.
  intros Hc Hs Hl. unfold effect_label.
  rewrite (search_skip cn) by exact Hc.
  rewrite (search_skip " - ") by reflexivity.
  rewrite (search_skip sn) by exact Hs.
  rewrite (search_skip " - ") by reflexivity.
  rewrite (search_skip ln) by exact Hl.
  change (" [" ++ ?r)%string with (" " ++ "[" ++ r)%string.
  rewrite (search_skip " ") by reflexivity.
  pose proof (match_here_path c s l x "") as Hm.
  destruct ("[" ++ str_of_index c ++ "/" ++ str_of_index s ++ "/"
                ++ str_of_index l ++ "/" ++ str_of_index x ++ "]" ++ "")%string eqn:Hstr.
  - discriminate Hstr.
  - change ("]" ++ "")%string with "]" in Hstr. rewrite Hstr.
    cbn [EffectParse.search]. rewrite Hm. reflexivity.
Qed.

(** X11. The label that the effect list gives to the special effect at
    (c, s, l, x) is read back by [EFFECT_PARSE] as that same path, as
    long as none of the three names contains '[': the match that
    [search] returns is the leftmost one. Each group writes its index
    in decimal, and [int] returns that index when it lies below
    10^4300, the bound on the digits of the text that [int] takes. *)
Theorem effect_label_parses (cn sn ln : string) (c s l x : nat) :
  no_bracket cn = true -> no_bracket sn = true -> no_bracket ln = true ->
  exists g1 g2 g3 g4,
    EffectParse.search (effect_label cn sn ln c s l x) = Some (g1, g2, g3, g4) /\
    (EffectParse.digits_value g1 = Z.of_nat c /\
     EffectParse.digits_value g2 = Z.of_nat s /\
     EffectParse.digits_value g3 = Z.of_nat l /\
     EffectParse.digits_value g4 = Z.of_nat x) /\
    (within_int_limit c -> EffectParse.int_of_digits g1 = inr (Z.of_nat c)) /\
    (within_int_limit s -> EffectParse.int_of_digits g2 = inr (Z.of_nat s)) /\
    (within_int_limit l -> EffectParse.int_of_digits g3 = inr (Z.of_nat l)) /\
    (within_int_limit x -> EffectParse.int_of_digits g4 = inr (Z.of_nat x)).
Proof.
  intros Hc Hs Hl.
  exists (str_of_index c), (str_of_index s), (str_of_index l), (str_of_index x).
  split; [now apply search_effect_label|].
  split; [repeat split; apply digits_value_index|].
  repeat split; apply int_of_digits_index.
Qed.

Lemma effect_label_parses_witness :
  exists g1 g2 g3 g4,
    EffectParse.search (effect_label "Life" "Sunrise" "A" 0 12 3 104) = Some (g1, g2, g3, g4) /\
    (EffectParse.digits_value g1 = Z.of_nat 0 /\
     EffectParse.digits_value g2 = Z.of_nat 12 /\
     EffectParse.digits_value g3 = Z.of_nat 3 /\
     EffectParse.digits_value g4 = Z.of_nat 104) /\
    (within_int_limit 0 -> EffectParse.int_of_digits g1 = inr (Z.of_nat 0)) /\
    (within_int_limit 12 -> EffectParse.int_of_digits g2 = inr (Z.of_nat 12)) /\
    (within_int_limit 3 -> EffectParse.int_of_digits g3 = inr (Z.of_nat 3)) /\
    (within_int_limit 104 -> EffectParse.int_of_digits g4 = inr (Z.of_nat 104)).
Proof.
  apply (effect_label_parses "Life" "Sunrise" "A" 0 12 3 104); reflexivity.
Defined.

(** ** The effect list and the catalog *)

Lemma bind_inr {A B : Type} (m : result A) (k : A -> result B) (v : B) :
  Py.bind m k = inr v -> exists a, m = inr a /\ k a = inr v.
Proof. destruct m as [e|a]; simpl; [discriminate|]. eauto. Qed.

Lemma for_enumerate_In {A : Type} (body : nat -> pyval -> result (list A)) (xs : list pyval) :
  forall i L,
    for_enumerate body i xs = inr L ->
    forall e, In e L ->
      exists k x l, nth_error xs k = Some x /\ body (i + k)%nat x = inr l /\ In e l.
Proof.
  induction xs as [|x xs IH]; intros i L H e He; simpl in H.
  - injection H as <-. destruct He.
  - apply bind_inr in H as (here & Hh & H). apply bind_inr in H as (rest & Hr & H).
    injection H as <-. apply in_app_or in He as [He|He].
    + exists 0%nat, x, here. rewrite Nat.add_0_r. auto.
    + destruct (IH _ _ Hr e He) as (k & y & l & Hk & Hb & Hl).
      exists (S k), y, l. rewrite Nat.add_succ_r. auto.
Qed.

Lemma for_enumerate_nth {A : Type} (body : nat -> pyval -> result (list A)) (xs : list pyval) :
  forall i L,
    for_enumerate body i xs = inr L ->
    forall k x, nth_error xs k = Some x ->
      exists l, body (i + k)%nat x = inr l /\ incl l L.
Proof.
  induction xs as [|y xs IH]; intros i L H k x Hk; simpl in H.
  - destruct k; discriminate.
  - apply bind_inr in H as (here & Hh & H). apply bind_inr in H as (rest & Hr & H).
    injection H as <-. destruct k as [|k]; simpl in Hk.
    + injection Hk as <-. exists here. rewrite Nat.add_0_r. split; [exact Hh|].
      apply incl_appl, incl_refl.
    + destruct (IH _ _ Hr k x Hk) as (l & Hb & Hl).
      exists l. rewrite Nat.add_succ_r. split; [exact Hb|]. now apply incl_appr.
Qed.

Lemma seq_index_nat (n k : nat) :
  seq_index n (Z.of_nat k) = if (k <? n)%nat then Some k else None.
Proof.
  unfold seq_index.
  replace (Z.of_nat k <? 0) with false by (symmetry; apply Z.ltb_ge; lia).
  replace (0 <=? Z.of_nat k) with true by (symmetry; apply Z.leb_le; lia).
  rewrite Nat2Z.id. simpl andb.
  destruct (k <? n)%nat eqn:Hk.
  - apply Nat.ltb_lt in Hk. replace (Z.of_nat k <? Z.of_nat n) with true; [reflexivity|].
    symmetry. apply Z.ltb_lt. lia.
  - apply Nat.ltb_ge in Hk. replace (Z.of_nat k <? Z.of_nat n) with false; [reflexivity|].
    symmetry. apply Z.ltb_ge. lia.
Qed.

Lemma chars_nth (s : string) (k : nat) :
  nth_error (chars s) k
  = match String.get k s with
    | Some c => Some (PyStr (String c EmptyString))
    | None => None
    end.
Proof.
  revert k. induction s as [|c s IH]; intros [|k]; simpl; try reflexivity. apply IH.
Qed.

(** Indexing with a position agrees with iteration. *)
Lemma getitem_int_in_iter (v : pyval) (items : list pyval) (k : nat) (x : pyval) :
  iter v = inr items ->
  getitem_int v (Z.of_nat k) = inr x ->
  nth_error items k = Some x.
Proof.
  destruct v as [| | | |s|bs|xs|kvs]; simpl; try discriminate;
    intros [= <-]; rewrite ?seq_index_nat.
  - destruct (k <? String.length s)%nat; [|discriminate].
    rewrite chars_nth. destruct (String.get k s); [|discriminate]. now intros [= <-].
  - destruct (k <? List.length bs)%nat; [|discriminate].
    rewrite nth_error_map. destruct (nth_error bs k); [|discriminate]. now intros [= <-].
  - destruct (k <? List.length xs)%nat; [|discriminate].
    destruct (nth_error xs k); [|discriminate]. now intros [= <-].
Qed.

Lemma get_some_lt (s : string) (k : nat) (c : ascii) :
  String.get k s = Some c -> (k < String.length s)%nat.
Proof.
  revert k. induction s as [|c' s IH]; intros [|k]; simpl; try discriminate; try lia.
  intros H. apply IH in H. lia.
Qed.

(** An item that iteration visits is found by its position, unless the
    container is a dict, where a position is not a key. *)
Lemma iter_in_getitem (v : pyval) (items : list pyval) (k : nat) (x : pyval) :
  iter v = inr items ->
  nth_error items k = Some x ->
  getitem_int v (Z.of_nat k) = inr x \/
  (getitem_int v (Z.of_nat k) = inl KeyError /\ exists key, x = PyStr key).
Proof.
  destruct v as [| | | |s|bs|xs|kvs]; simpl; try discriminate;
    intros [= <-]; rewrite ?seq_index_nat.
  - rewrite chars_nth. destruct (String.get k s) as [c|] eqn:Hg; [|discriminate].
    intros [= <-]. left. pose proof (get_some_lt _ _ _ Hg) as Hlt.
    apply Nat.ltb_lt in Hlt. now rewrite Hlt, Hg.
  - intros H. left.
    assert (Hk : (k < List.length bs)%nat).
    { rewrite <- (length_map PyInt). apply nth_error_Some. congruence. }
    apply Nat.ltb_lt in Hk. rewrite Hk.
    rewrite nth_error_map in H. destruct (nth_error bs k); [|discriminate].
    now injection H as <-.
  - intros H. left.
    assert (Hk : (k < List.length xs)%nat) by (apply nth_error_Some; congruence).
    apply Nat.ltb_lt in Hk. now rewrite Hk, H.
  - intros H. right. split; [reflexivity|].
    rewrite nth_error_map in H. destruct (nth_error kvs k) as [[key v]|]; [|discriminate].
    injection H as <-. eauto.
Qed.

(** The same, by the kind of the container: a position finds the item
    that iteration visits there in a list, a string or bytes, and
    raises [KeyError] in a dict. *)
Lemma iter_getitem_outcome (v : pyval) (items : list pyval) (k : nat) (x : pyval) :
  iter v = inr items ->
  nth_error items k = Some x ->
  getitem_int v (Z.of_nat k)
  = match v with
    | PyDict _ => inl KeyError
    | _ => inr x
    end.
Proof.
  destruct v as [| | | |s|bs|xs|kvs]; simpl; try discriminate;
    intros [= <-]; rewrite ?seq_index_nat.
  - rewrite chars_nth. destruct (String.get k s) as [c|] eqn:Hg; [|discriminate].
    intros [= <-]. pose proof (get_some_lt _ _ _ Hg) as Hlt.
    apply Nat.ltb_lt in Hlt. now rewrite Hlt, Hg.
  - intros H.
    assert (Hk : (k < List.length bs)%nat).
    { rewrite <- (length_map PyInt). apply nth_error_Some. congruence. }
    apply Nat.ltb_lt in Hk. rewrite Hk.
    rewrite nth_error_map in H. destruct (nth_error bs k); [|discriminate].
    now injection H as <-.
  - intros H.
    assert (Hk : (k < List.length xs)%nat) by (apply nth_error_Some; congruence).
    apply Nat.ltb_lt in Hk. now rewrite Hk, H.
  - reflexivity.
Qed.

Lemma iter_in_getitem_dict (v : pyval) (items : list pyval) (k : nat) (x y : pyval) (key : string) :
  iter v = inr items ->
  nth_error items k = Some x ->
  getitem_str x key = inr y ->
  getitem_int v (Z.of_nat k) = inr x.
Proof.
  intros Hi Hn Hg. destruct (iter_in_getitem v items k x Hi Hn) as [H|(_ & key' & ->)];
    [exact H | discriminate Hg].
Qed.

Ltac bind_inv H :=
  let a := fresh "v" in
  let Ha := fresh "Hv" in
  apply bind_inr in H as (a & Ha & H).

(** X12. Every entry of the effect list is the label of a light effect of
    the catalog, with the names of its path and the position x of one
    of the items that iterating over its special effects visits. What
    turn-on finds at that path depends on the container of the special
    effects alone: in a list (or a string or bytes) the lookup by
    position succeeds and returns that very item; in a dict the entry
    is listed all the same, but the lookup raises [KeyError]. *)
Theorem effect_list_sound (repr_rest : pyval -> string) (json_data : pyval)
    (L : list string) (e : string) :
  effect_list_of repr_rest json_data = inr L ->
  In e L ->
  exists c s l x cn sn ln specialEffects items specialEffect,
    e = effect_label (format_field repr_rest cn) (format_field repr_rest sn)
                     (format_field repr_rest ln) c s l x /\
    path_names json_data c s l = inr (cn, sn, ln) /\
    special_effects_at json_data c s l = inr specialEffects /\
    iter specialEffects = inr items /\
    nth_error items x = Some specialEffect /\
    lookup_special_effect json_data (Z.of_nat c, Z.of_nat s, Z.of_nat l, Z.of_nat x)
    = match specialEffects with
      | PyDict _ => inl KeyError
      | _ => inr specialEffect
      end.
Proof.
  intros H He. unfold effect_list_of in H.
  bind_inv H. bind_inv H. bind_inv H.
  destruct (for_enumerate_In _ _ _ _ H e He) as (c & category & l1 & Hc & H1 & He1).
  cbn [Nat.add] in H1. bind_inv H1. bind_inv H1.
  destruct (for_enumerate_In _ _ _ _ H1 e He1) as (s & scene & l2 & Hs & H2 & He2).
  cbn [Nat.add] in H2. bind_inv H2. bind_inv H2.
  destruct (for_enumerate_In _ _ _ _ H2 e He2) as (l & lightEffect & l3 & Hl & H3 & He3).
  cbn [Nat.add] in H3. bind_inv H3. bind_inv H3.
  destruct (for_enumerate_In _ _ _ _ H3 e He3) as (x & specialEffect & l4 & Hx & H4 & He4).
  cbn [Nat.add] in H4. bind_inv H4. bind_inv H4. bind_inv H4.
  injection H4 as <-. destruct He4 as [<-|[]].
  pose proof (iter_in_getitem_dict _ _ _ _ _ _ Hv1 Hc Hv2) as Gc.
  pose proof (iter_in_getitem_dict _ _ _ _ _ _ Hv3 Hs Hv4) as Gs.
  pose proof (iter_in_getitem_dict _ _ _ _ _ _ Hv5 Hl Hv6) as Gl.
  exists c, s, l, x, v8, v9, v10, v6, v7, specialEffect.
  split; [reflexivity|]. split; [|split; [|split; [exact Hv7|split; [exact Hx|]]]].
  - unfold path_names. rewrite Hv. cbn [Py.bind]. rewrite Hv0. cbn [Py.bind].
    rewrite Gc. cbn [Py.bind]. rewrite Hv2. cbn [Py.bind].
    rewrite Gs. cbn [Py.bind]. rewrite Hv4. cbn [Py.bind].
    rewrite Gl. cbn [Py.bind]. rewrite Hv8, Hv9, Hv10. reflexivity.
  - unfold special_effects_at. rewrite Hv. cbn [Py.bind]. rewrite Hv0. cbn [Py.bind].
    rewrite Gc. cbn [Py.bind]. rewrite Hv2. cbn [Py.bind].
    rewrite Gs. cbn [Py.bind]. rewrite Hv4. cbn [Py.bind].
    rewrite Gl. cbn [Py.bind]. exact Hv6.
  - unfold lookup_special_effect. rewrite Hv. cbn [Py.bind]. rewrite Hv0. cbn [Py.bind].
    rewrite Gc. cbn [Py.bind]. rewrite Hv2. cbn [Py.bind].
    rewrite Gs. cbn [Py.bind]. rewrite Hv4. cbn [Py.bind].
    rewrite Gl. cbn [Py.bind]. rewrite Hv6. cbn [Py.bind].
    apply (iter_getitem_outcome _ _ _ _ Hv7 Hx).
Qed.

(** X13. Every special effect that turn-on can reach by its positions is in
    the effect list, labelled with the names of its path. *)
Theorem effect_list_complete (repr_rest : pyval -> string) (json_data : pyval)
    (L : list string) (c s l x : nat) (sp : pyval) :
  effect_list_of repr_rest json_data = inr L ->
  lookup_special_effect json_data (Z.of_nat c, Z.of_nat s, Z.of_nat l, Z.of_nat x) = inr sp ->
  exists cn sn ln,
    path_names json_data c s l = inr (cn, sn, ln) /\
    In (effect_label (format_field repr_rest cn) (format_field repr_rest sn)
                     (format_field repr_rest ln) c s l x) L.
Proof.
  intros H Hlook. unfold effect_list_of in H. unfold lookup_special_effect in Hlook.
  bind_inv H. bind_inv H. bind_inv H.
  rewrite Hv in Hlook. cbn [Py.bind] in Hlook. rewrite Hv0 in Hlook. cbn [Py.bind] in Hlook.
  bind_inv Hlook. rename v2 into category, Hv2 into Gc.
  bind_inv Hlook. rename v2 into scenes, Hv2 into Gscenes.
  bind_inv Hlook. rename v2 into scene, Hv2 into Gs.
  bind_inv Hlook. rename v2 into lightEffects, Hv2 into Gles.
  bind_inv Hlook. rename v2 into lightEffect, Hv2 into Gl.
  bind_inv Hlook. rename v2 into specialEffects, Hv2 into Gses.
  pose proof (getitem_int_in_iter _ _ _ _ Hv1 Gc) as Hc.
  destruct (for_enumerate_nth _ _ _ _ H c category Hc) as (l1 & H1 & I1).
  cbn [Nat.add] in H1. rewrite Gscenes in H1. cbn [Py.bind] in H1. bind_inv H1.
  pose proof (getitem_int_in_iter _ _ _ _ Hv2 Gs) as Hs.
  destruct (for_enumerate_nth _ _ _ _ H1 s scene Hs) as (l2 & H2 & I2).
  cbn [Nat.add] in H2. rewrite Gles in H2. cbn [Py.bind] in H2. bind_inv H2.
  pose proof (getitem_int_in_iter _ _ _ _ Hv3 Gl) as Hl.
  destruct (for_enumerate_nth _ _ _ _ H2 l lightEffect Hl) as (l3 & H3 & I3).
  cbn [Nat.add] in H3. rewrite Gses in H3. cbn [Py.bind] in H3. bind_inv H3.
  pose proof (getitem_int_in_iter _ _ _ _ Hv4 Hlook) as Hx.
  destruct (for_enumerate_nth _ _ _ _ H3 x sp Hx) as (l4 & H4 & I4).
  cbn [Nat.add] in H4. bind_inv H4. bind_inv H4. bind_inv H4. injection H4 as <-.
  exists v5, v6, v7. split.
  - unfold path_names. rewrite Hv. cbn [Py.bind]. rewrite Hv0. cbn [Py.bind].
    rewrite Gc. cbn [Py.bind]. rewrite Gscenes. cbn [Py.bind].
    rewrite Gs. cbn [Py.bind]. rewrite Gles. cbn [Py.bind].
    rewrite Gl. cbn [Py.bind]. rewrite Hv5, Hv6, Hv7. reflexivity.
  - apply I1, I2, I3, I4. left. reflexivity.
Qed.

Lemma effect_list_sound_witness :
  exists c s l x cn sn ln specialEffects items specialEffect,
    "Life - Sunrise - A [0/0/0/0]"
    = effect_label (format_field sample_repr cn) (format_field sample_repr sn)
                   (format_field sample_repr ln) c s l x /\
    path_names sample_catalog c s l = inr (cn, sn, ln) /\
    special_effects_at sample_catalog c s l = inr specialEffects /\
    iter specialEffects = inr items /\
    nth_error items x = Some specialEffect /\
    lookup_special_effect sample_catalog (Z.of_nat c, Z.of_nat s, Z.of_nat l, Z.of_nat x)
    = match specialEffects with
      | PyDict _ => inl KeyError
      | _ => inr specialEffect
      end.
Proof.
  apply (effect_list_sound sample_repr sample_catalog ["Life - Sunrise - A [0/0/0/0]"]).
  - reflexivity.
  - left. reflexivity.
Defined.

Lemma effect_list_complete_witness :
  exists cn sn ln,
    path_names sample_catalog 0 0 0 = inr (cn, sn, ln) /\
    In (effect_label (format_field sample_repr cn) (format_field sample_repr sn)
                     (format_field sample_repr ln) 0 0 0 0)
       ["Life - Sunrise - A [0/0/0/0]"].
Proof.
  apply (effect_list_complete sample_repr sample_catalog ["Life - Sunrise - A [0/0/0/0]"]
           0 0 0 0 (PyDict [("scenceParam", PyStr "AQID")])).
  - reflexivity.
  - reflexivity.
Defined.

(** X14. Choosing a label of the effect list at turn-on selects the
    special effect that the label was listed for: with names free of
    '[' and indexes below 10^4300, which [int] converts, the call
    decodes the [scenceParam] of the special effect at (c, s, l, x)
    and appends the packets that the splitter makes of it. *)
Theorem listed_effect_selects
    (E : env) (kw : kwargs) (commands : list (list Z)) (st : state)
    (cn sn ln : string) (c s l x : nat)
    (json_data sp param : pyval) (blob : list Z) (packets : list (list Z)) :
  ATTR_EFFECT kw = Some (effect_label cn sn ln c s l x) ->
  no_bracket cn = true -> no_bracket sn = true -> no_bracket ln = true ->
  within_int_limit c -> within_int_limit s -> within_int_limit l -> within_int_limit x ->
  read_catalog E (_model (fst st)) = inr json_data ->
  lookup_special_effect json_data (Z.of_nat c, Z.of_nat s, Z.of_nat l, Z.of_nat x) = inr sp ->
  getitem_str sp "scenceParam" = inr param ->
  b64decode E param = inr blob ->
  prepareMultiplePacketsData E 0xa3 [0x02] blob = inr packets ->
  turn_on_effect E kw commands st = (inr (commands ++ packets), st).
Proof.
  intros He Hcn Hsn Hln Fc Fs Fl Fx Hcat Hlook Hparam Hblob Hpk.
  pose proof (search_effect_label cn sn ln c s l x Hcn Hsn Hln) as Hs.
  unfold turn_on_effect. rewrite He, (search_nonempty _ _ Hs), Hs.
  rewrite (int_of_digits_index c Fc), (int_of_digits_index s Fs),
    (int_of_digits_index l Fl), (int_of_digits_index x Fx).
  step_call. rewrite Hcat, Hlook, Hparam.
  cbn [Py.bind]. rewrite Hblob. cbn [Py.bind]. rewrite Hpk. reflexivity.
Qed.

Lemma listed_effect_selects_witness :
  turn_on_effect env_fresh_links (mkKwargs None None (Some "Life - Sunrise - A [0/0/0/0]"))
    [] (sample_h617a, world0)
  = (inr ([] ++ [[0xa3; 0x02; 1; 2; 3]]), (sample_h617a, world0)).
Proof.
  apply (listed_effect_selects env_fresh_links
           (mkKwargs None None (Some "Life - Sunrise - A [0/0/0/0]")) []
           (sample_h617a, world0) "Life" "Sunrise" "A" 0 0 0 0
           sample_catalog (PyDict [("scenceParam", PyStr "AQID")]) (PyStr "AQID") [1; 2; 3]);
    try reflexivity; apply Z.ltb_lt; vm_compute; reflexivity.
Defined.

(** ** Turning on: what is sent when *)

(** X15. If the commands cannot all be built (a level that does not fit a
    byte, a catalog that cannot be read, an effect that it does not
    have, a decoder or splitter that fails), the call raises that
    error with nothing sent: no connection is attempted and no frame
    is written, not even the Power-on frame that was built first. The
    entity is reported as on all the same. *)
Theorem turn_on_build_failure_sends_nothing (E : env) (kw : kwargs) (s : state) (e : exn) :
  fst (build_commands E kw s) = inl e ->
  fst (async_turn_on E kw s) = inl e /\
  snd (snd (async_turn_on E kw s)) = snd s /\
  sent s (snd (async_turn_on E kw s)) = [] /\
  _state (fst (snd (async_turn_on E kw s))) = Some true.
Proof.
  intros Hb. pose proof (build_commands_world E kw s) as (Hw & Hst).
  unfold async_turn_on, mbind.
  destruct (build_commands E kw s) as [[e'|commands] s1]; cbn [fst snd] in *; [|discriminate].
  injection Hb as ->. repeat split; try assumption.
  unfold sent. rewrite Hw. apply skipn_all.
Qed.

Lemma turn_on_build_failure_sends_nothing_witness :
  fst (async_turn_on env_no_catalog (mkKwargs (Some 128) None (Some "Life - Sunrise - A [0/0/0/0]"))
         (sample_flat, world0)) = inl OSError /\
  snd (snd (async_turn_on env_no_catalog
              (mkKwargs (Some 128) None (Some "Life - Sunrise - A [0/0/0/0]"))
              (sample_flat, world0))) = snd (sample_flat, world0) /\
  sent (sample_flat, world0)
       (snd (async_turn_on env_no_catalog
               (mkKwargs (Some 128) None (Some "Life - Sunrise - A [0/0/0/0]"))
               (sample_flat, world0))) = [] /\
  _state (fst (snd (async_turn_on env_no_catalog
                      (mkKwargs (Some 128) None (Some "Life - Sunrise - A [0/0/0/0]"))
                      (sample_flat, world0)))) = Some true.
Proof.
  apply (turn_on_build_failure_sends_nothing env_no_catalog
           (mkKwargs (Some 128) None (Some "Life - Sunrise - A [0/0/0/0]"))
           (sample_flat, world0) OSError).
  reflexivity.
Defined.

(** X16. On a model that is neither segmented nor percent-scaled, the
    Brightness frame carries the level as given and the Color frame
    is MANUAL (0x02) followed by red, green, blue; both are padded
    with zeros and closed by the XOR checksum. *)
Theorem flat_model_frames
    (E : env) (self : entity) (w : world) (level red green blue : Z) :
  _is_segmented self = false ->
  _use_percent self = false ->
  0 <= level <= 255 ->
  0 <= red <= 255 -> 0 <= green <= 255 -> 0 <= blue <= 255 ->
  let bri := [0x33; 0x04; level; 0; 0; 0; 0; 0; 0; 0; 0; 0; 0; 0; 0; 0; 0; 0; 0] in
  let col := [0x33; 0x05; 0x02; red; green; blue; 0; 0; 0; 0; 0; 0; 0; 0; 0; 0; 0; 0; 0] in
  fst (build_commands E (mkKwargs (Some level) (Some (red, green, blue)) None) (self, w))
  = inr [[0x33; 0x01; 0x01; 0; 0; 0; 0; 0; 0; 0; 0; 0; 0; 0; 0; 0; 0; 0; 0; 0x33];
         bri ++ [xor_all bri];
         col ++ [xor_all col]].
Proof.
  intros Hseg Hp Hl Hr Hg Hb bri col.
  assert (Hbri : _prepareSinglePacketData (PyInt LedCommand.BRIGHTNESS) (PyList [PyInt level])
                 = inr (bri ++ [xor_all bri])).
  { apply (prepareSinglePacketData_ints LedCommand.BRIGHTNESS [level]).
    - repeat constructor; lia.
    - simpl. lia. }
  assert (Hcol : _prepareSinglePacketData (PyInt LedCommand.COLOR)
                   (PyList [PyInt LedMode.MANUAL; PyInt red; PyInt green; PyInt blue])
                 = inr (col ++ [xor_all col])).
  { apply (prepareSinglePacketData_ints LedCommand.COLOR [LedMode.MANUAL; red; green; blue]).
    - unfold LedMode.MANUAL. repeat constructor; lia.
    - simpl. lia. }
  unfold build_commands. rewrite power_on_frame. step_call.
  match goal with
  | |- context [turn_on_brightness ?kw ?c ?s0] =>
      pose proof (turn_on_brightness_spec kw c s0) as Hs1
  end.
  cbn [ATTR_BRIGHTNESS] in Hs1. unfold brightness_level in Hs1.
  cbn [fst assign_state _use_percent] in Hs1. rewrite Hp in Hs1.
  unfold Py.bind in Hs1. rewrite Hbri in Hs1. rewrite Hs1.
  match goal with
  | |- context [turn_on_color ?kw ?c ?s1] =>
      pose proof (turn_on_color_spec kw c s1) as Hs2
  end.
  cbn [ATTR_RGB_COLOR] in Hs2. unfold color_payload in Hs2.
  cbn [fst assign_state assign_brightness _is_segmented] in Hs2. rewrite Hseg in Hs2.
  rewrite Hcol in Hs2. rewrite Hs2. reflexivity.
Qed.

Lemma flat_model_frames_witness :
  fst (build_commands env_fresh_links (mkKwargs (Some 7) (Some (1, 2, 3)) None)
         (sample_flat, world0))
  = inr [[0x33; 0x01; 0x01; 0; 0; 0; 0; 0; 0; 0; 0; 0; 0; 0; 0; 0; 0; 0; 0; 0x33];
         [0x33; 0x04; 7; 0; 0; 0; 0; 0; 0; 0; 0; 0; 0; 0; 0; 0; 0; 0; 0]
           ++ [xor_all [0x33; 0x04; 7; 0; 0; 0; 0; 0; 0; 0; 0; 0; 0; 0; 0; 0; 0; 0; 0]];
         [0x33; 0x05; 0x02; 1; 2; 3; 0; 0; 0; 0; 0; 0; 0; 0; 0; 0; 0; 0; 0]
           ++ [xor_all [0x33; 0x05; 0x02; 1; 2; 3; 0; 0; 0; 0; 0; 0; 0; 0; 0; 0; 0; 0; 0]]].
Proof.
  apply (flat_model_frames env_fresh_links sample_flat world0 7 1 2 3);
    try reflexivity; lia.
Defined.

(** ** A device within reach *)

Lemma send_commands_reachable (E : env) (commands : list (list Z)) :
  (forall n, exists l, establish_connection E n = inr l) ->
  (forall n l f, write_gatt_char E n l f = inr tt) ->
  forall s,
    exists links,
      List.length links = List.length commands /\
      send_commands E commands s
      = (inr tt,
         (fst s, {| conn_calls := conn_calls (snd s) + List.length commands;
                    write_calls := write_calls (snd s) + List.length commands;
                    written := written (snd s) ++ combine links commands |})).
Proof.
  intros Hconn Hwrite. induction commands as [|c rest IH]; intros [self w].
  - exists []. split; [reflexivity|].
    cbn [send_commands fst snd List.length combine]. unfold mret.
    rewrite !Nat.add_0_r, app_nil_r. destruct w; reflexivity.
  - destruct (Hconn (conn_calls w)) as (l & Hl).
    cbn [send_commands]. unfold mbind, _connectBluetooth.
    rewrite (connect_loop_success E 3 0 l (self, w)); cbn [fst snd];
      [|lia|intros i Hi; lia|rewrite Nat.add_0_r; exact Hl].
    unfold await_write_gatt_char. cbn [fst snd conn_calls write_calls written].
    rewrite Hwrite.
    match goal with
    | |- context [send_commands E rest ?s1] => destruct (IH s1) as (links & Hlen & ->)
    end.
    exists (l :: links). cbn [fst snd conn_calls write_calls written List.length combine].
    split; [now rewrite Hlen|]. rewrite <- app_assoc. cbn [app].
    replace (conn_calls w + 1 + List.length rest)%nat
      with (conn_calls w + S (List.length rest))%nat by lia.
    replace (S (write_calls w) + List.length rest)%nat
      with (write_calls w + S (List.length rest))%nat by lia.
    reflexivity.
Qed.

(** X17. When every connection attempt and every write succeeds, a turn-on
    call whose commands can be built completes: it writes all of them,
    in order, with exactly one connection and one write per frame. *)
Theorem turn_on_completes_within_reach
    (E : env) (kw : kwargs) (s s1 : state) (commands : list (list Z)) :
  (forall n, exists l, establish_connection E n = inr l) ->
  (forall n l f, write_gatt_char E n l f = inr tt) ->
  build_commands E kw s = (inr commands, s1) ->
  fst (async_turn_on E kw s) = inr tt /\
  map snd (sent s (snd (async_turn_on E kw s))) = commands /\
  conn_calls (snd (snd (async_turn_on E kw s)))
  = (conn_calls (snd s) + List.length commands)%nat /\
  write_calls (snd (snd (async_turn_on E kw s)))
  = (write_calls (snd s) + List.length commands)%nat.
Proof.
  intros Hconn Hwrite Hb.
  pose proof (build_commands_world E kw s) as (Hw & _). rewrite Hb in Hw. cbn [snd] in Hw.
  unfold async_turn_on, mbind. rewrite Hb.
  destruct (send_commands_reachable E commands Hconn Hwrite s1) as (links & Hlen & Hs).
  rewrite Hw in Hs. rewrite Hs.
  cbn [fst snd conn_calls write_calls]. repeat split.
  unfold sent. cbn [snd written]. rewrite skipn_length_app.
  now apply map_snd_combine.
Qed.

Lemma turn_on_completes_within_reach_witness :
  fst (async_turn_on env_fresh_links (mkKwargs (Some 128) (Some (10, 20, 30)) None)
         (sample_h617a, world0)) = inr tt /\
  map snd (sent (sample_h617a, world0)
             (snd (async_turn_on env_fresh_links (mkKwargs (Some 128) (Some (10, 20, 30)) None)
                     (sample_h617a, world0))))
  = [[0x33; 0x01; 0x01; 0; 0; 0; 0; 0; 0; 0; 0; 0; 0; 0; 0; 0; 0; 0; 0; 0x33];
     [0x33; 0x04; 50; 0; 0; 0; 0; 0; 0; 0; 0; 0; 0; 0; 0; 0; 0; 0; 0; 5];
     [0x33; 0x05; 0x15; 0x01; 10; 20; 30; 0; 0; 0; 0; 0; 0xFF; 0x7F; 0; 0; 0; 0; 0; 162]] /\
  conn_calls (snd (snd (async_turn_on env_fresh_links
                          (mkKwargs (Some 128) (Some (10, 20, 30)) None)
                          (sample_h617a, world0)))) = 3%nat /\
  write_calls (snd (snd (async_turn_on env_fresh_links
                           (mkKwargs (Some 128) (Some (10, 20, 30)) None)
                           (sample_h617a, world0)))) = 3%nat.
Proof.
  eapply (turn_on_completes_within_reach env_fresh_links
            (mkKwargs (Some 128) (Some (10, 20, 30)) None) (sample_h617a, world0) _
            [[0x33; 0x01; 0x01; 0; 0; 0; 0; 0; 0; 0; 0; 0; 0; 0; 0; 0; 0; 0; 0; 0x33];
             [0x33; 0x04; 50; 0; 0; 0; 0; 0; 0; 0; 0; 0; 0; 0; 0; 0; 0; 0; 0; 5];
             [0x33; 0x05; 0x15; 0x01; 10; 20; 30; 0; 0; 0; 0; 0; 0xFF; 0x7F; 0; 0; 0; 0; 0; 162]]).
  - intros n. exists n. reflexivity.
  - intros n l f. reflexivity.
  - vm_compute. reflexivity.
Defined.

(** ** The configuration flow *)

Section FlowModels.

Import ConfigFlow.

Lemma insert_perm (x : string) (l : list string) : Permutation (insert x l) (x :: l).
Proof.
  induction l as [|y l IH]; simpl; [reflexivity|].
  destruct (String.leb x y); [reflexivity|].
  rewrite IH. apply perm_swap.
Qed.

Lemma sort_perm (l : list string) : Permutation (sort l) l.
Proof.
  induction l as [|x l IH]; simpl; [reflexivity|].
  rewrite insert_perm. now constructor.
Qed.

Lemma insert_sorted (x : string) (l : list string) :
  Sorted string_le l -> Sorted string_le (insert x l).
Proof.
  induction 1 as [|y l Hs IH Hd]; simpl.
  - repeat constructor.
  - destruct (String.leb x y) eqn:Hxy.
    + constructor; [constructor; assumption|]. constructor. exact Hxy.
    + constructor; [exact IH|].
      assert (Hyx : string_le y x).
      { destruct (String.leb_total x y) as [H|H]; [congruence|exact H]. }
      destruct Hd as [|z l Hyz]; simpl.
      * constructor. exact Hyx.
      * destruct (String.leb x z); constructor; assumption.
Qed.

Lemma sort_sorted (l : list string) : Sorted string_le (sort l).
Proof.
  induction l as [|x l IH]; simpl; [constructor | now apply insert_sorted].
Qed.

(** X18. [_load_available_models] lists the directory only while the flow
    holds no model: a list that is not empty is returned as it is,
    whatever the directory holds and even if it cannot be read. From
    the empty list, the result is the file names with every ".json"
    removed, in ascending order; an error of the listing is raised. *)
Theorem load_available_models_outcome
    (iterdir : result (list string)) (models : list string) :
  (models <> [] -> _load_available_models iterdir models = inr models) /\
  (forall files,
     models = [] -> iterdir = inr files ->
     exists loaded,
       _load_available_models iterdir models = inr loaded /\
       Sorted string_le loaded /\
       Permutation loaded (map (replace_with_empty ".json") files) /\
       forall again, loaded <> [] -> _load_available_models again loaded = inr loaded) /\
  (forall e, models = [] -> iterdir = inl e ->
     _load_available_models iterdir models = inl e).
Proof.
  split; [|split].
  - destruct models; [congruence | reflexivity].
  - intros files -> ->. eexists. split; [reflexivity|].
    split; [apply sort_sorted|]. split; [apply sort_perm|].
    intros again H. destruct (sort _); [congruence | reflexivity].
  - intros e -> ->. reflexivity.
Qed.

Lemma prefix_json_no_dot (c : ascii) (s : string) :
  Ascii.eqb c "." = false -> String.prefix ".json" (String c s) = false.
Proof.
  intros H.
  change (String.prefix ".json" (String c s))
    with (match ascii_dec "." c with
          | left _ => String.prefix "json" s
          | right _ => false
          end).
  destruct (ascii_dec "." c) as [<-|_]; [|reflexivity].
  discriminate H.
Qed.

Lemma remove_json_no_dot (m rest : string) :
  no_dot m = true ->
  remove_all_from ".json" 0 (m ++ rest) = (m ++ remove_all_from ".json" 0 rest)%string.
Proof.
  induction m as [|c m IH]; intros H; [reflexivity|].
  simpl in H. apply andb_true_iff in H as [Hc Hm]. apply negb_true_iff in Hc.
  cbn [append remove_all_from]. rewrite prefix_json_no_dot by exact Hc.
  now rewrite IH.
Qed.

Lemma remove_json_self (m : string) :
  no_dot m = true -> remove_all_from ".json" 0 m = m.
Proof.
  induction m as [|c m IH]; intros H; [reflexivity|].
  simpl in H. apply andb_true_iff in H as [Hc Hm]. apply negb_true_iff in Hc.
  cbn [remove_all_from]. rewrite prefix_json_no_dot by exact Hc.
  now rewrite IH.
Qed.

Lemma append_empty_r (m : string) : (m ++ "")%string = m.
Proof. induction m as [|c m IH]; simpl; [reflexivity | now rewrite IH]. Qed.

(** X19. The model offered for a catalog file is its name without the
    extension: for a name [m.json] in which [m] has no dot, the model
    is [m], and [m.json] is again the file that the entity opens for
    it. A name without a dot is offered as it is. *)
Theorem model_of_catalog_file (m : string) :
  no_dot m = true ->
  replace_with_empty ".json" (m ++ ".json") = m /\
  (replace_with_empty ".json" (m ++ ".json") ++ ".json")%string = (m ++ ".json")%string /\
  replace_with_empty ".json" m = m.
Proof.
  intros H. unfold replace_with_empty.
  assert (H1 : remove_all_from ".json" 0 (m ++ ".json") = m).
  { rewrite remove_json_no_dot by exact H.
    change (remove_all_from ".json" 0 ".json") with EmptyString.
    apply append_empty_r. }
  split; [exact H1|]. split; [now rewrite H1|]. now apply remove_json_self.
Qed.

Lemma has_key_lookup (a : string) (d : list (string * string)) :
  has_key a d = match lookup a d with Some _ => true | None => false end.
Proof.
  induction d as [|[k v] d IH]; simpl; [reflexivity|].
  destruct (String.eqb a k); [reflexivity | exact IH].
Qed.

Lemma lookup_app_one (a k v : string) (d : list (string * string)) :
  lookup a (d ++ [(k, v)])
  = match lookup a d with
    | Some n => Some n
    | None => if String.eqb a k then Some v else None
    end.
Proof.
  induction d as [|[k' v'] d IH]; simpl; [reflexivity|].
  destruct (String.eqb a k'); [reflexivity | exact IH].
Qed.

Lemma lookup_none_not_key (a : string) (d : list (string * string)) :
  lookup a d = None -> ~ In a (map fst d).
Proof.
  induction d as [|[k v] d IH]; simpl; [tauto|].
  destruct (String.eqb a k) eqn:Hk; [discriminate|].
  apply String.eqb_neq in Hk. intros H [Hi|Hi]; [congruence|]. now apply IH.
Qed.

Lemma discover_lookup (current : list string) (infos : list service_info) :
  forall (d : list (string * string)) (a : string),
    lookup a (discover current d infos)
    = match lookup a d with
      | Some n => Some n
      | None =>
          if existsb (String.eqb a) current then None else first_name a infos
      end.
Proof.
  induction infos as [|i rest IH]; intros d a; cbn [discover].
  - destruct (lookup a d); [reflexivity|]. unfold first_name. simpl.
    now destruct (existsb _ current).
  - unfold first_name. cbn [find]. fold (first_name a rest).
    rewrite has_key_lookup.
    destruct (existsb (String.eqb (address i)) current) eqn:Hcur; cbn [negb andb].
    + rewrite IH. destruct (lookup a d); [reflexivity|].
      destruct (String.eqb a (address i)) eqn:Ha; [|reflexivity].
      apply String.eqb_eq in Ha. subst a. now rewrite Hcur.
    + destruct (lookup (address i) d) as [n0|] eqn:Hl; cbn [negb].
      * rewrite IH. destruct (lookup a d) eqn:Hla; [reflexivity|].
        destruct (String.eqb a (address i)) eqn:Ha; [|reflexivity].
        apply String.eqb_eq in Ha. subst a. congruence.
      * rewrite IH, lookup_app_one. destruct (lookup a d); [reflexivity|].
        destruct (String.eqb a (address i)) eqn:Ha; [|reflexivity].
        apply String.eqb_eq in Ha. subst a. now rewrite Hcur.
Qed.

Lemma discover_extends (current : list string) (infos : list service_info) :
  forall d : list (string * string),
    NoDup (map fst d) ->
    NoDup (map fst (discover current d infos)) /\
    exists added, discover current d infos = d ++ added.
Proof.
  induction infos as [|i rest IH]; intros d Hd; cbn [discover].
  - split; [exact Hd|]. exists []. now rewrite app_nil_r.
  - destruct (negb (existsb (String.eqb (address i)) current)
              && negb (has_key (address i) d)) eqn:Hc.
    + apply andb_true_iff in Hc as [_ Hk]. apply negb_true_iff in Hk.
      rewrite has_key_lookup in Hk.
      destruct (lookup (address i) d) eqn:Hl; [discriminate|].
      apply lookup_none_not_key in Hl.
      destruct (IH (d ++ [(address i, name i)])) as (Hn & added & Ha).
      * rewrite map_app. simpl.
        apply NoDup_app; [exact Hd | repeat constructor; simpl; tauto |].
        intros a Hin [<-|[]]. contradiction.
      * split; [exact Hn|]. exists ((address i, name i) :: added).
        rewrite Ha, <- app_assoc. reflexivity.
    + now apply IH.
Qed.

(** X20. The dict of discovered devices only grows, and only by new
    addresses: what it held stays, in place and under the same name;
    an address already configured is never added; any other address
    seen gets the name of its first advertisement, and a later
    advertisement does not rename it. No address is held twice. *)
Theorem discovered_devices_grow
    (current : list string) (d : list (string * string)) (infos : list service_info) :
  NoDup (map fst d) ->
  NoDup (map fst (discover current d infos)) /\
  (exists added, discover current d infos = d ++ added) /\
  forall a,
    lookup a (discover current d infos)
    = match lookup a d with
      | Some n => Some n
      | None =>
          if existsb (String.eqb a) current then None else first_name a infos
      end.
Proof.
  intros Hd. destruct (discover_extends current infos d Hd) as (Hn & Ha).
  split; [exact Hn|]. split; [exact Ha|]. intros a. apply discover_lookup.
Qed.

Lemma discovered_devices_grow_witness :
  NoDup (map fst (discover ["C"] [("A", "a")]
                    [mkServiceInfo "B" "b1"; mkServiceInfo "A" "a2";
                     mkServiceInfo "C" "c"; mkServiceInfo "B" "b2"])) /\
  (exists added,
     discover ["C"] [("A", "a")]
       [mkServiceInfo "B" "b1"; mkServiceInfo "A" "a2";
        mkServiceInfo "C" "c"; mkServiceInfo "B" "b2"]
     = [("A", "a")] ++ added) /\
  forall a,
    lookup a (discover ["C"] [("A", "a")]
                [mkServiceInfo "B" "b1"; mkServiceInfo "A" "a2";
                 mkServiceInfo "C" "c"; mkServiceInfo "B" "b2"])
    = match lookup a [("A", "a")] with
      | Some n => Some n
      | None =>
          if existsb (String.eqb a) ["C"] then None
          else first_name a [mkServiceInfo "B" "b1"; mkServiceInfo "A" "a2";
                             mkServiceInfo "C" "c"; mkServiceInfo "B" "b2"]
      end.
Proof.
  apply (discovered_devices_grow ["C"] [("A", "a")]
           [mkServiceInfo "B" "b1"; mkServiceInfo "A" "a2";
            mkServiceInfo "C" "c"; mkServiceInfo "B" "b2"]).
  simpl. repeat constructor. simpl. tauto.
Defined.

Lemma model_of_catalog_file_witness :
  replace_with_empty ".json" ("H617A" ++ ".json") = "H617A" /\
  (replace_with_empty ".json" ("H617A" ++ ".json") ++ ".json")%string
  = ("H617A" ++ ".json")%string /\
  replace_with_empty ".json" "H617A" = "H617A".
Proof.
  apply (model_of_catalog_file "H617A"). reflexivity.
Defined.

End FlowModels.
